(** * Istio Beacon charm: a shallow embedding of [src/charm.py] and [src/models.py]

    The charm keeps three things in step with its configuration: a waypoint
    Gateway, a set of AuthorizationPolicies derived from the mesh relation
    data, and three labels on the model's namespace.  The Python methods are
    embedded as functions over an explicit [World] (the cluster as the
    lightkube client shows it, plus the trace of calls made so far) in a
    state-and-exception monad; pure helpers are plain functions. *)

From Stdlib Require Import ZArith String DecimalString Lia.
From stdpp Require Import base option list gmap strings fin_maps.

Set Warnings "-register-all".
Open Scope Z_scope.
Open Scope string_scope.

(** ** Python values used by the charm *)

Module Py.

(** Truthiness of [str], [Optional[str]], [Optional[List[_]]] and dicts. *)
Definition truthy_str (s : string) : bool :=
  match s with EmptyString => false | String _ _ => true end.

Definition truthy_opt_str (o : option string) : bool :=
  match o with Some s => truthy_str s | None => false end.

Definition truthy_opt_list {A} (o : option (list A)) : bool :=
  match o with Some (_ :: _) => true | _ => false end.

(** [a or b] on an optional string and a string. *)
Definition or_str (a : option string) (b : string) : string :=
  match a with
  | Some s => if truthy_str s then s else b
  | None => b
  end.

(** [str(p)] for an [int]. *)
Definition str_int (p : Z) : string := NilZero.string_of_int (Z.to_int p).

(** [sep.join(parts)]. *)
Definition join (sep : string) (parts : list string) : string :=
  String.concat sep parts.

(** [s[:n]]. *)
Definition slice_to (n : nat) (s : string) : string := substring 0 n s.

(** [range(n)] for an [int] that may be negative. *)
Definition range (n : Z) : list nat := seq 0 (Z.to_nat n).

(** A dumped value: what [model_dump] returns (strings, lists, dicts). *)
Inductive value :=
  | VStr (s : string)
  | VInt (z : Z)
  | VList (xs : list value)
  | VDict (items : list (string * value)).

(** [d.get(k)] on a dumped dict (first binding wins; the dumps below never
    bind a key twice). *)
Fixpoint assoc (k : string) (items : list (string * value)) : option value :=
  match items with
  | [] => None
  | (k', v) :: rest => if String.eqb k k' then Some v else assoc k rest
  end.

Definition dict_get (k : string) (v : value) : option value :=
  match v with VDict items => assoc k items | _ => None end.

Definition list_items (v : value) : option (list value) :=
  match v with VList xs => Some xs | _ => None end.

End Py.

(** ** [models.py]: the pydantic schemas

    A pydantic field with a default remembers whether the constructor was
    given it ([model_fields_set]).  [Unset] is a field left at its default;
    [Given o] is a field passed explicitly, possibly as [None]. *)

Inductive field (A : Type) :=
| Unset
| Given (v : option A).
Arguments Unset {A}.
Arguments Given {A} v.

(** One entry of [model_dump(exclude_unset=True, exclude_none=True)]: the
    field appears only when it was given and is not [None]. *)
Definition dump_field {A} (name : string) (to_value : A -> Py.value)
    (f : field A) : list (string * Py.value) :=
  match f with
  | Given (Some v) => [(name, to_value v)]
  | Given None => []
  | Unset => []
  end.

Definition dump_strs (l : list string) : Py.value := Py.VList (map Py.VStr l).

Inductive Action := allow | deny.

Definition Action_value (a : Action) : Py.value :=
  match a with allow => Py.VStr "ALLOW" | deny => Py.VStr "DENY" end.

Module PolicyTargetReference.
Record t := mk {
  group : string;
  kind : string;
  name : string;
  namespace : field string }.
Definition model_dump (r : t) : Py.value :=
  Py.VDict ([("group", Py.VStr (group r)); ("kind", Py.VStr (kind r));
             ("name", Py.VStr (name r))]
            ++ dump_field "namespace" Py.VStr (namespace r)).
End PolicyTargetReference.

Module Source.
Record t := mk {
  principals : field (list string);
  notPrincipals : field (list string) }.
Definition model_dump (s : t) : Py.value :=
  Py.VDict (dump_field "principals" dump_strs (principals s)
            ++ dump_field "notPrincipals" dump_strs (notPrincipals s)).
End Source.

Module From.
Record t := mk { source : Source.t }.
Definition model_dump (f : t) : Py.value :=
  Py.VDict [("source", Source.model_dump (source f))].
End From.

Module Operation.
Record t := mk {
  hosts : field (list string);
  notHosts : field (list string);
  ports : field (list string);
  methods : field (list string);
  notMethods : field (list string);
  paths : field (list string);
  notPaths : field (list string) }.
Definition model_dump (o : t) : Py.value :=
  Py.VDict (dump_field "hosts" dump_strs (hosts o)
            ++ dump_field "notHosts" dump_strs (notHosts o)
            ++ dump_field "ports" dump_strs (ports o)
            ++ dump_field "methods" dump_strs (methods o)
            ++ dump_field "notMethods" dump_strs (notMethods o)
            ++ dump_field "paths" dump_strs (paths o)
            ++ dump_field "notPaths" dump_strs (notPaths o)).
End Operation.

Module To.
Record t := mk { operation : field Operation.t }.
Definition model_dump (x : t) : Py.value :=
  Py.VDict (dump_field "operation" Operation.model_dump (operation x)).
End To.

Module Condition.
Record t := mk {
  key : string;
  values : field (list string);
  notValues : field (list string) }.
Definition model_dump (c : t) : Py.value :=
  Py.VDict ([("key", Py.VStr (key c))]
            ++ dump_field "values" dump_strs (values c)
            ++ dump_field "notValues" dump_strs (notValues c)).
End Condition.

Module Rule.
(** [from_] is dumped under its alias [from] ([by_alias=True]). *)
Record t := mk {
  from_ : field (list From.t);
  to : field (list To.t);
  when : field (list Condition.t) }.
Definition model_dump (r : t) : Py.value :=
  Py.VDict (dump_field "from" (fun l => Py.VList (map From.model_dump l)) (from_ r)
            ++ dump_field "to" (fun l => Py.VList (map To.model_dump l)) (to r)
            ++ dump_field "when" (fun l => Py.VList (map Condition.model_dump l)) (when r)).
End Rule.

Module AuthorizationPolicySpec.
(** [action] has the default [Action.allow]; left unset it is not dumped. *)
Record t := mk {
  action : field Action;
  targetRefs : list PolicyTargetReference.t;
  rules : list Rule.t }.
Definition model_dump (s : t) : Py.value :=
  Py.VDict (dump_field "action" Action_value (action s)
            ++ [("targetRefs", Py.VList (map PolicyTargetReference.model_dump (targetRefs s)));
                ("rules", Py.VList (map Rule.model_dump (rules s)))]).
End AuthorizationPolicySpec.

(** The waypoint schemas.  The charm gives every field it uses and calls
    [model_dump()] on them without exclusions. *)
Module AllowedRoutes.
Record t := mk { namespaces : list (string * string) }.
Definition model_dump (a : t) : Py.value :=
  Py.VDict [("namespaces",
             Py.VDict (map (fun kv => (fst kv, Py.VStr (snd kv))) (namespaces a)))].
End AllowedRoutes.

Module Listener.
Record t := mk {
  name : string;
  port : Z;
  protocol : string;
  allowedRoutes : AllowedRoutes.t }.
Definition model_dump (l : t) : Py.value :=
  Py.VDict [("name", Py.VStr (name l)); ("port", Py.VInt (port l));
            ("protocol", Py.VStr (protocol l));
            ("allowedRoutes", AllowedRoutes.model_dump (allowedRoutes l))].
End Listener.

Module IstioWaypointSpec.
Record t := mk {
  gatewayClassName : string;
  listeners : list Listener.t }.
Definition model_dump (s : t) : Py.value :=
  Py.VDict [("gatewayClassName", Py.VStr (gatewayClassName s));
            ("listeners", Py.VList (map Listener.model_dump (listeners s)))].
End IstioWaypointSpec.

Module Metadata.
Record t := mk {
  name : string;
  namespace : string;
  labels : option (list (string * string));
  annotations : option (list (string * string)) }.
End Metadata.

Module IstioWaypointResource.
Record t := mk {
  metadata : Metadata.t;
  spec : IstioWaypointSpec.t }.
End IstioWaypointResource.

(** ** The mesh relation data *)

(** Modelled from the spec: the [MeshPolicy] and [Endpoint] types of the
    [service_mesh] charm library, which [charm.py] imports but which is not
    among the sources.  They follow the spec's PolicyIntent: source
    application, source namespace, target application, optional target
    service and an ordered list of endpoint descriptors (ports, hosts,
    methods, paths), each list possibly absent. *)
Module Endpoint.
Record t := mk {
  hosts : option (list string);
  ports : option (list Z);
  methods : option (list string);
  paths : option (list string) }.
End Endpoint.

Module MeshPolicy.
Record t := mk {
  source_app_name : string;
  source_namespace : string;
  target_app_name : string;
  target_service : option string;
  endpoints : list Endpoint.t }.
End MeshPolicy.

(** ** The charm object *)

Record Config := {
  ready_timeout : Z;
  manage_authorization_policies : bool;
  model_on_mesh : bool }.

(** [self]: the application name, the model (namespace) name and the
    configuration, as [self.app.name], [self.model.name], [self.config]. *)
Record Charm := {
  app_name : string;
  model_name : string;
  config : Config }.

Definition _app_identity (self : Charm) : string :=
  app_name self ++ "-" ++ model_name self.

Definition _waypoint_name (self : Charm) : string :=
  app_name self ++ "-" ++ model_name self ++ "-waypoint".

Definition _telemetry_labels (self : Charm) : list (string * string) :=
  [("charms.canonical.com/" ++ model_name self ++ "." ++ app_name self ++ ".telemetry",
    "aggregated")].

(** [format_labels]: comma-separated [key=value] pairs. *)
Definition format_labels (label_dict : list (string * string)) : string :=
  Py.join "," (map (fun kv => fst kv ++ "=" ++ snd kv) label_dict).

(** ** Peer identities *)

Definition _get_peer_identity_for_service_account (service_account namespace : string) : string :=
  "cluster.local/ns/" ++ namespace ++ "/sa/" ++ service_account.

Definition _get_peer_identity_for_juju_application (app_name namespace : string) : string :=
  let service_account := app_name in
  _get_peer_identity_for_service_account service_account namespace.

(** ** Hashing

    [hashlib.sha256(...).hexdigest()] and pydantic's [str(model)] are library
    code; the charm relies only on the digest being 64 hexadecimal
    characters long. *)
Class Hashing := {
  sha256_hexdigest : string -> string;
  pydantic_str : MeshPolicy.t -> string;
  sha256_hexdigest_length : forall s, String.length (sha256_hexdigest s) = 64%nat }.

Definition _hash_pydantic_model `{Hashing} (model : MeshPolicy.t) : string :=
  let _stable_hash data := sha256_hexdigest (pydantic_str data) in
  _stable_hash model.

(** ** Policy names *)

Definition _generate_authorization_policy_name `{Hashing}
    (self : Charm) (mesh_policy : MeshPolicy.t) : string :=
  let name :=
    Py.join "-"
      [app_name self;
       model_name self;
       "policy";
       MeshPolicy.source_app_name mesh_policy;
       MeshPolicy.source_namespace mesh_policy;
       MeshPolicy.target_app_name mesh_policy;
       Py.slice_to 8 (_hash_pydantic_model mesh_policy)] in
  if (253 <? String.length name)%nat then
    Py.join "-"
      [app_name self;
       model_name self;
       "policy";
       Py.slice_to 30 (MeshPolicy.source_app_name mesh_policy);
       Py.slice_to 30 (MeshPolicy.source_namespace mesh_policy);
       Py.slice_to 30 (MeshPolicy.target_app_name mesh_policy);
       Py.slice_to 8 (_hash_pydantic_model mesh_policy)]
  else name.

(** The name format of the docstring, written out:
    [{app_name}-{model_name}-policy-{source}-{namespace}-{target}-{hash}]. *)
Definition name_format (self : Charm) (source namespace target hash : string) : string :=
  app_name self ++ "-" ++ model_name self ++ "-policy-"
  ++ source ++ "-" ++ namespace ++ "-" ++ target ++ "-" ++ hash.

(** A stand-in digest for running the definitions on concrete inputs: the
    text itself, cut or padded with zeros to 64 characters. *)
Definition zeros64 : string :=
  "0000000000000000000000000000000000000000000000000000000000000000".

Definition padded_digest (s : string) : string := substring 0 64 (s ++ zeros64).

Definition plain_str (p : MeshPolicy.t) : string :=
  MeshPolicy.source_app_name p ++ "/" ++ MeshPolicy.source_namespace p ++ "/"
  ++ MeshPolicy.target_app_name p.


(** ** Cluster objects as lightkube shows them *)

(** A label dictionary.  After [_remove_labels] updates it, a key may be
    bound to [None], which is how the patch asks for its removal. *)
Abbreviation labels_dict := (gmap string (option string)).

Module ObjectMeta.
Record t := mk {
  name : option string;
  namespace : option string;
  labels : option labels_dict }.
(** [ObjectMeta()]. *)
Definition empty : t := mk None None None.
Definition with_labels (m : t) (l : option labels_dict) : t :=
  mk (name m) (namespace m) l.
End ObjectMeta.

Module Namespace.
Record t := mk { metadata : option ObjectMeta.t }.
End Namespace.

Module DeploymentStatus.
Record t := mk {
  readyReplicas : option Z;
  replicas : option Z }.
End DeploymentStatus.

Module Deployment.
Record t := mk { status : option DeploymentStatus.t }.
End Deployment.

(** [RESOURCE_TYPES]: the two generic resources the charm creates. *)
Inductive ResourceKind := Gateway | AuthorizationPolicy.

Record Resource := {
  kind : ResourceKind;
  metadata : ObjectMeta.t;
  spec : Py.value }.

(** The two label scopes of the resource managers. *)
Inductive Scope := WAYPOINT_LABEL | AUTHORIZATION_POLICY_LABEL.

#[export] Instance ResourceKind_eq_dec : EqDecision ResourceKind.
Proof. solve_decision. Defined.

#[export] Instance Scope_eq_dec : EqDecision Scope.
Proof. solve_decision. Defined.

(** [d.get(k)] on a label dictionary. *)
Definition labels_get (d : labels_dict) (k : string) : option string :=
  match d !! k with Some v => v | None => None end.

(** [d.update(other)]: later items win. *)
Definition labels_update (d : labels_dict) (other : list (string * option string)) : labels_dict :=
  foldl (fun m kv => <[fst kv := snd kv]> m) d other.

(** A dict literal with string values. *)
Definition labels_of (items : list (string * string)) : labels_dict :=
  labels_update ∅ (map (fun kv => (fst kv, Some (snd kv))) items).

(** Truthiness of [Optional[Dict]]. *)
Definition truthy_labels (o : option labels_dict) : bool :=
  match o with Some d => negb (bool_decide (d = ∅)) | None => false end.

(** ** Building the desired resources *)

Section Build.
Context `{Hashing}.

(** The [Operation(...)] built for one endpoint. *)
Definition operation_of_endpoint (endpoint : Endpoint.t) : Operation.t :=
  {| Operation.ports :=
       Given (Some (if Py.truthy_opt_list (Endpoint.ports endpoint)
                    then map Py.str_int (default [] (Endpoint.ports endpoint))
                    else []));
     Operation.hosts := Given (Endpoint.hosts endpoint);
     Operation.methods := Given (Endpoint.methods endpoint);
     Operation.paths := Given (Endpoint.paths endpoint);
     Operation.notHosts := Unset;
     Operation.notMethods := Unset;
     Operation.notPaths := Unset |}.

(** The [AuthorizationPolicySpec(...)] built for one policy. *)
Definition spec_of_policy (self : Charm) (policy : MeshPolicy.t) : AuthorizationPolicySpec.t :=
  let target_service :=
    Py.or_str (MeshPolicy.target_service policy) (MeshPolicy.target_app_name policy) in
  {| AuthorizationPolicySpec.action := Unset;
     AuthorizationPolicySpec.targetRefs :=
       [ {| PolicyTargetReference.kind := "Service";
            PolicyTargetReference.group := "";
            PolicyTargetReference.name := target_service;
            PolicyTargetReference.namespace := Unset |} ];
     AuthorizationPolicySpec.rules :=
       [ {| Rule.from_ :=
              Given (Some
                [ {| From.source :=
                       {| Source.principals :=
                            Given (Some
                              [ _get_peer_identity_for_juju_application
                                  (MeshPolicy.source_app_name policy) (model_name self) ]);
                          Source.notPrincipals := Unset |} |} ]);
            Rule.to :=
              Given (Some
                (map (fun endpoint =>
                        {| To.operation := Given (Some (operation_of_endpoint endpoint)) |})
                     (MeshPolicy.endpoints policy)));
            Rule.when := Unset |} ] |}.

(** The resource assigned to [authorization_policies[i]]. *)
Definition resource_of_policy (self : Charm) (policy : MeshPolicy.t) : Resource :=
  {| kind := AuthorizationPolicy;
     metadata :=
       {| ObjectMeta.name := Some (_generate_authorization_policy_name self policy);
          ObjectMeta.namespace := Some (model_name self);
          ObjectMeta.labels := None |};
     spec := AuthorizationPolicySpec.model_dump (spec_of_policy self policy) |}.

Definition _construct_waypoint (self : Charm) : Resource :=
  let gateway :=
    {| IstioWaypointResource.metadata :=
         {| Metadata.name := _waypoint_name self;
            Metadata.namespace := model_name self;
            Metadata.labels :=
              Some (("istio.io/waypoint-for", "all") :: _telemetry_labels self);
            Metadata.annotations := None |};
       IstioWaypointResource.spec :=
         {| IstioWaypointSpec.gatewayClassName := "istio-waypoint";
            IstioWaypointSpec.listeners :=
              [ {| Listener.name := "mesh";
                   Listener.port := 15008;
                   Listener.protocol := "HBONE";
                   Listener.allowedRoutes :=
                     {| AllowedRoutes.namespaces := [("from", "All")] |} |} ] |} |} in
  let m := IstioWaypointResource.metadata gateway in
  {| kind := Gateway;
     metadata :=
       {| ObjectMeta.name := Some (Metadata.name m);
          ObjectMeta.namespace := Some (Metadata.namespace m);
          ObjectMeta.labels := labels_of <$> Metadata.labels m |};
     spec := IstioWaypointSpec.model_dump (IstioWaypointResource.spec gateway) |}.

End Build.

(** [mesh_labels]: the labels a workload needs to join the mesh. *)
Definition mesh_labels (self : Charm) : list (string * string) :=
  if model_on_mesh (config self) then []
  else [("istio.io/dataplane-mode", "ambient");
        ("istio.io/use-waypoint", _waypoint_name self);
        ("istio.io/use-waypoint-namespace", model_name self)].

(** ** The world the charm runs in *)

Inductive exn :=
| RuntimeError (msg : string)
| ApiError
| ChangeError
| TypeError.

Inductive res (A : Type) :=
| Ok (a : A)
| Raise (e : exn).
Arguments Ok {A} a.
Arguments Raise {A} e.

Inductive level := DEBUG | INFO | WARNING | ERROR.

Inductive Status :=
| ActiveStatus
| BlockedStatus (msg : string)
| MaintenanceStatus (msg : string).

(** What the charm does to the outside, in the order it does it. *)
Inductive Event :=
| SetStatus (s : Status)
| Log (l : level) (msg : string)
| Reconcile (scope : Scope) (resources : list (option Resource))
| GetNamespace (name : string)
| PatchNamespace (name : string) (obj : Namespace.t)
| GetDeployment (name namespace : string)
| Sleep (seconds : Z)
| AddLayer (command : string)
| Replan.

(** What a [get] of the client answers: the object, or an [ApiError]. *)
Inductive answer (A : Type) :=
| Found (a : A)
| Failed.
Arguments Found {A} a.
Arguments Failed {A}.

Record World := {
  is_leader : bool;
  mesh_info : list MeshPolicy.t;
  namespace_object : answer Namespace.t;
  deployment_answers : list (answer Deployment.t);
  owned : Scope -> list Resource;
  patch_fails : bool;
  reconcile_fails : Scope -> bool;
  can_connect : bool;
  replan_fails : bool;
  trace : list Event }.

Definition with_trace (w : World) (t : list Event) : World :=
  {| is_leader := is_leader w; mesh_info := mesh_info w;
     namespace_object := namespace_object w;
     deployment_answers := deployment_answers w; owned := owned w;
     patch_fails := patch_fails w; reconcile_fails := reconcile_fails w;
     can_connect := can_connect w; replan_fails := replan_fails w;
     trace := t |}.

Definition with_namespace_object (w : World) (n : answer Namespace.t) : World :=
  {| is_leader := is_leader w; mesh_info := mesh_info w;
     namespace_object := n;
     deployment_answers := deployment_answers w; owned := owned w;
     patch_fails := patch_fails w; reconcile_fails := reconcile_fails w;
     can_connect := can_connect w; replan_fails := replan_fails w;
     trace := trace w |}.

Definition with_deployment_answers (w : World) (l : list (answer Deployment.t)) : World :=
  {| is_leader := is_leader w; mesh_info := mesh_info w;
     namespace_object := namespace_object w;
     deployment_answers := l; owned := owned w;
     patch_fails := patch_fails w; reconcile_fails := reconcile_fails w;
     can_connect := can_connect w; replan_fails := replan_fails w;
     trace := trace w |}.

Definition with_owned (w : World) (o : Scope -> list Resource) : World :=
  {| is_leader := is_leader w; mesh_info := mesh_info w;
     namespace_object := namespace_object w;
     deployment_answers := deployment_answers w; owned := o;
     patch_fails := patch_fails w; reconcile_fails := reconcile_fails w;
     can_connect := can_connect w; replan_fails := replan_fails w;
     trace := trace w |}.

(** ** State and exceptions *)

Definition M (A : Type) : Type := World -> res A * World.

Definition ret {A} (a : A) : M A := fun w => (Ok a, w).

Definition bind {A B} (m : M A) (k : A -> M B) : M B :=
  fun w =>
    match m w with
    | (Ok a, w') => k a w'
    | (Raise e, w') => (Raise e, w')
    end.

Definition raise {A} (e : exn) : M A := fun w => (Raise e, w).

(** [try: m  except E: handler], for the exceptions [E] that [catches] accepts. *)
Definition try_except {A} (catches : exn -> bool) (m : M A) (handler : M A) : M A :=
  fun w =>
    match m w with
    | (Raise e, w') => if catches e then handler w' else (Raise e, w')
    | r => r
    end.

Definition is_ApiError (e : exn) : bool :=
  match e with ApiError => true | _ => false end.

Definition is_ChangeError (e : exn) : bool :=
  match e with ChangeError => true | _ => false end.

Definition emit (e : Event) : M unit :=
  fun w => (Ok tt, with_trace w (trace w ++ [e])).

Definition read {A} (f : World -> A) : M A := fun w => (Ok (f w), w).

Notation "x <- m ;; k" := (bind m (fun x => k))
  (at level 100, m at next level, right associativity).
Notation "m ;;; k" := (bind m (fun _ => k))
  (at level 100, right associativity).

Definition log (l : level) (msg : string) : M unit := emit (Log l msg).

Definition set_status (s : Status) : M unit := emit (SetStatus s).

(** ** The cluster behind the lightkube client *)

(** The label map the API server keeps after a patch of the labels: a key
    sent with a value is set, a key sent as [None] is removed, a key not
    sent is kept. *)
Definition patched_labels (sent current : labels_dict) : labels_dict :=
  merge (fun s c =>
           match s with
           | Some (Some v) => Some (Some v)
           | Some None => None
           | None => c
           end) sent current.

Definition labels_of_namespace (n : Namespace.t) : labels_dict :=
  match Namespace.metadata n with
  | Some m => default ∅ (ObjectMeta.labels m)
  | None => ∅
  end.

Definition patched_namespace (sent current : Namespace.t) : Namespace.t :=
  let m := default ObjectMeta.empty (Namespace.metadata current) in
  {| Namespace.metadata :=
       Some (ObjectMeta.with_labels m
               (Some (patched_labels (labels_of_namespace sent)
                                     (labels_of_namespace current)))) |}.

(** [client.get(Namespace, name)]. *)
Definition client_get_namespace (name : string) : M Namespace.t :=
  emit (GetNamespace name) ;;;
  n <- read namespace_object ;;
  match n with
  | Found ns => ret ns
  | Failed => raise ApiError
  end.

(** [client.patch(Namespace, name, obj)]. *)
Definition client_patch_namespace (name : string) (obj : Namespace.t) : M unit :=
  emit (PatchNamespace name obj) ;;;
  fails <- read patch_fails ;;
  if (fails : bool) then raise ApiError
  else
    fun w =>
      match namespace_object w with
      | Found cur => (Ok tt, with_namespace_object w (Found (patched_namespace obj cur)))
      | Failed => (Raise ApiError, w)
      end.

(** [client.get(Deployment, name=..., namespace=...)]: the next answer of
    the cluster; once the answers run out the deployment is not found. *)
Definition client_get_deployment (name namespace : string) : M Deployment.t :=
  emit (GetDeployment name namespace) ;;;
  fun w =>
    match deployment_answers w with
    | Found d :: rest => (Ok d, with_deployment_answers w rest)
    | Failed :: rest => (Raise ApiError, with_deployment_answers w rest)
    | [] => (Raise ApiError, w)
    end.

(** [time.sleep(seconds)]. *)
Definition sleep (seconds : Z) : M unit := emit (Sleep seconds).

(** *** The resource manager *)

(** Modelled from the spec: [KubernetesResourceManager.reconcile], which the
    charm calls but which is not among the sources.  It follows the spec's
    ReconcileEngine: every desired object is created when no owned object has
    its identity (kind, name, namespace) and replaces the owned one
    otherwise; every owned object whose identity is not desired is deleted.
    A failing call is taken to fail before its first write. *)
Definition same_identity (a b : Resource) : bool :=
  bool_decide (kind a = kind b)
  && bool_decide (ObjectMeta.name (metadata a) = ObjectMeta.name (metadata b))
  && bool_decide (ObjectMeta.namespace (metadata a) = ObjectMeta.namespace (metadata b)).

Definition apply_object (current : list Resource) (o : Resource) : list Resource :=
  if existsb (same_identity o) current
  then map (fun x => if same_identity o x then o else x) current
  else current ++ [o].

Definition reconcile_objects (current desired : list Resource) : list Resource :=
  List.filter (fun x => existsb (same_identity x) desired)
              (foldl apply_object current desired).

(** A list slot still holding [None] cannot be applied. *)
Fixpoint all_present {A} (l : list (option A)) : option (list A) :=
  match l with
  | [] => Some []
  | Some x :: rest => match all_present rest with Some xs => Some (x :: xs) | None => None end
  | None :: _ => None
  end.

Definition krm_reconcile (scope : Scope) (resources : list (option Resource)) : M unit :=
  emit (Reconcile scope resources) ;;;
  fails <- read reconcile_fails ;;
  if (fails scope : bool) then raise ApiError
  else
    match all_present resources with
    | None => raise TypeError
    | Some desired =>
        fun w =>
          (Ok tt,
           with_owned w (fun s => if bool_decide (s = scope)
                                  then reconcile_objects (owned w s) desired
                                  else owned w s))
    end.

(** ** The charm's methods

    Log lines that interpolate an exception or a list keep their fixed
    text only. *)

Section Charm.
Context `{Hashing}.

Definition USE_WAYPOINT : string := "istio.io/use-waypoint".
Definition DATAPLANE_MODE : string := "istio.io/dataplane-mode".
Definition MANAGED_BY : string := "charms.canonical.com/istio.io.waypoint.managed-by".

Definition _get_authorization_policy_resource_manager (self : Charm) : Scope :=
  AUTHORIZATION_POLICY_LABEL.

Definition _get_waypoint_resource_manager (self : Charm) : Scope :=
  WAYPOINT_LABEL.

Definition _setup_proxy_pebble_service (self : Charm) : M unit :=
  connected <- read can_connect ;;
  if negb connected then ret tt
  else
    emit (AddLayer ("metrics-proxy --labels " ++ format_labels (_telemetry_labels self))) ;;;
    try_except is_ChangeError
      (emit Replan ;;;
       fails <- read replan_fails ;;
       if (fails : bool) then raise ChangeError else ret tt)
      (log ERROR "Error while replanning proxy container").

(** The readiness test of one poll:
    [deployment.status and status.readyReplicas == status.replicas]. *)
Definition deployment_ready (deployment : Deployment.t) : bool :=
  match Deployment.status deployment with
  | Some status =>
      bool_decide (DeploymentStatus.readyReplicas status = DeploymentStatus.replicas status)
  | None => false
  end.

(** The body of the [for] loop, once per element of [range(attempts)];
    [true] stands for the [return True] inside the loop. *)
Fixpoint poll_deployment (self : Charm) (check_interval : Z) (iterations : list nat) : M bool :=
  match iterations with
  | [] => ret false
  | _ :: rest =>
      ready <-
        try_except is_ApiError
          (deployment <- client_get_deployment (_waypoint_name self) (model_name self) ;;
           if deployment_ready deployment then ret true
           else log INFO "Deployment not ready, retrying..." ;;; ret false)
          (log INFO "Deployment not found, retrying..." ;;; ret false) ;;
      if (ready : bool) then ret true
      else sleep check_interval ;;; poll_deployment self check_interval rest
  end.

Definition _is_waypoint_deployment_ready (self : Charm) : M bool :=
  let timeout := ready_timeout (config self) in
  let check_interval := 10 in
  let attempts := timeout / check_interval in
  poll_deployment self check_interval (Py.range attempts).

Definition _is_waypoint_ready (self : Charm) : M bool :=
  ready <- _is_waypoint_deployment_ready self ;;
  if negb ready then ret false else ret true.

(** The [for i, policy in enumerate(mesh_info)] loop over the list
    preallocated as [[None] * len(mesh_info)]. *)
Fixpoint build_loop (self : Charm) (items : list (nat * MeshPolicy.t))
    (authorization_policies : list (option Resource)) : M (list (option Resource)) :=
  match items with
  | [] => ret authorization_policies
  | (i, policy) :: rest =>
      (match MeshPolicy.target_service policy with
       | None =>
           log INFO ("Got policy for application '" ++ MeshPolicy.target_app_name policy
                     ++ "' that has no target_service. Defaulting to application name '"
                     ++ Py.or_str (MeshPolicy.target_service policy)
                                  (MeshPolicy.target_app_name policy) ++ "'.")
       | Some _ => ret tt
       end) ;;;
      build_loop self rest (<[i := Some (resource_of_policy self policy)]> authorization_policies)
  end.

Definition enumerate {A} (l : list A) : list (nat * A) := imap pair l.

Definition _build_authorization_policies (self : Charm) (mesh_info : list MeshPolicy.t)
    : M (list (option Resource)) :=
  let authorization_policies := replicate (length mesh_info) None in
  build_loop self (enumerate mesh_info) authorization_policies.

Definition _sync_authorization_policies (self : Charm) : M unit :=
  let krm := _get_authorization_policy_resource_manager self in
  authorization_policies <-
    (if manage_authorization_policies (config self) then
       info <- read mesh_info ;;
       authorization_policies <- _build_authorization_policies self info ;;
       log DEBUG "Reconciling state of AuthorizationPolicies to:" ;;;
       log DEBUG "<authorization_policies>" ;;;
       ret authorization_policies
     else
       log DEBUG "AuthorizationPolicies creation is disabled - reconciling to no Authorization Policies." ;;;
       ret []) ;;
  krm_reconcile krm authorization_policies.

Definition _get_namespace (self : Charm) : M (option Namespace.t) :=
  try_except is_ApiError
    (ns <- client_get_namespace (model_name self) ;; ret (Some ns))
    (log ERROR "Error fetching namespace" ;;; ret None).

Definition _patch_namespace (self : Charm) (namespace : Namespace.t) : M unit :=
  try_except is_ApiError
    (client_patch_namespace (model_name self) namespace)
    (log ERROR "Error patching namespace").

Definition _add_labels (self : Charm) : M unit :=
  namespace <- _get_namespace self ;;
  match namespace with
  | None => raise (RuntimeError "Error fetching namespace: None")
  | Some namespace =>
      let metadata := default ObjectMeta.empty (Namespace.metadata namespace) in
      let labels := default ∅ (ObjectMeta.labels metadata) in
      let existing_labels := labels in
      if (Py.truthy_opt_str (labels_get existing_labels USE_WAYPOINT)
          || Py.truthy_opt_str (labels_get existing_labels DATAPLANE_MODE))
         && negb (bool_decide (labels_get existing_labels MANAGED_BY = Some (_app_identity self)))
      then
        log ERROR ("Cannot add labels: Namespace '" ++ model_name self
                   ++ "' is already configured with Istio labels managed by another entity.")
      else
        let labels_to_add :=
          [(USE_WAYPOINT, Some (_waypoint_name self));
           (DATAPLANE_MODE, Some "ambient");
           (MANAGED_BY, Some (_app_identity self))] in
        let labels := labels_update labels labels_to_add in
        _patch_namespace self
          {| Namespace.metadata := Some (ObjectMeta.with_labels metadata (Some labels)) |}
  end.

Definition _remove_labels (self : Charm) : M unit :=
  namespace <- _get_namespace self ;;
  match namespace with
  | None => raise (RuntimeError "Error fetching namespace: None")
  | Some namespace =>
      match Namespace.metadata namespace with
      | Some metadata =>
          if truthy_labels (ObjectMeta.labels metadata) then
            let labels := default ∅ (ObjectMeta.labels metadata) in
            if negb (bool_decide (labels_get labels MANAGED_BY = Some (_app_identity self)))
            then
              log WARNING ("Cannot remove labels: Namespace '" ++ model_name self
                           ++ "' has Istio labels managed by another entity.")
            else
              let labels_to_remove :=
                [(USE_WAYPOINT, None); (DATAPLANE_MODE, None); (MANAGED_BY, None)] in
              let labels := labels_update labels labels_to_remove in
              _patch_namespace self
                {| Namespace.metadata := Some (ObjectMeta.with_labels metadata (Some labels)) |}
          else ret tt
      | None => ret tt
      end
  end.

Definition _sync_waypoint_resources (self : Charm) : M unit :=
  let resources_list : list (option Resource) := [] in
  let krm := _get_waypoint_resource_manager self in
  let resource_to_append := _construct_waypoint self in
  let resources_list := (resources_list ++ [Some resource_to_append])%list in
  krm_reconcile krm resources_list ;;;
  if model_on_mesh (config self) then _add_labels self else _remove_labels self.

Definition _sync_all_resources (self : Charm) : M unit :=
  leader <- read is_leader ;;
  if negb leader then
    set_status (BlockedStatus "Waypoint can only be provided on the leader unit.")
  else
    set_status (MaintenanceStatus "Validating waypoint readiness") ;;;
    _sync_waypoint_resources self ;;;
    ready <- _is_waypoint_ready self ;;
    if negb ready then
      raise (RuntimeError "Waypoint's k8s deployment not ready, is istio properly installed?")
    else
      _setup_proxy_pebble_service self ;;;
      set_status (MaintenanceStatus "Updating AuthorizationPolicies") ;;;
      _sync_authorization_policies self ;;;
      set_status ActiveStatus.

End Charm.

(** ** Reading a run *)

(** The namespace bodies sent by the [PatchNamespace] calls of a trace. *)
Fixpoint patches_of (t : list Event) : list Namespace.t :=
  match t with
  | [] => []
  | PatchNamespace _ obj :: rest => obj :: patches_of rest
  | _ :: rest => patches_of rest
  end.

(** The number of deployment polls in a trace. *)
Fixpoint polls_of (t : list Event) : nat :=
  match t with
  | [] => 0
  | GetDeployment _ _ :: rest => S (polls_of rest)
  | _ :: rest => polls_of rest
  end.

(** The labels the cluster holds for the namespace. *)
Definition namespace_labels (w : World) : labels_dict :=
  match namespace_object w with
  | Found ns => labels_of_namespace ns
  | Failed => ∅
  end.

(** An Istio label is present with a non-empty value. *)
Definition istio_configured (L : labels_dict) : Prop :=
  (exists v, labels_get L USE_WAYPOINT = Some v /\ v <> "")
  \/ (exists v, labels_get L DATAPLANE_MODE = Some v /\ v <> "").

(** The value [claim] gives a key: this charm's value for the three managed
    keys, the old value for any other key. *)
Definition claimed_value (self : Charm) (L : labels_dict) (k : string) : option string :=
  if decide (k = MANAGED_BY) then Some (_app_identity self)
  else if decide (k = DATAPLANE_MODE) then Some "ambient"
  else if decide (k = USE_WAYPOINT) then Some (_waypoint_name self)
  else labels_get L k.

(** The value [release] leaves a key with. *)
Definition released_value (L : labels_dict) (k : string) : option string :=
  if decide (k = MANAGED_BY) then None
  else if decide (k = DATAPLANE_MODE) then None
  else if decide (k = USE_WAYPOINT) then None
  else labels_get L k.

Definition add_labels_error (self : Charm) : string :=
  "Cannot add labels: Namespace '" ++ model_name self
  ++ "' is already configured with Istio labels managed by another entity.".

Definition remove_labels_warning (self : Charm) : string :=
  "Cannot remove labels: Namespace '" ++ model_name self
  ++ "' has Istio labels managed by another entity.".

Definition readiness_error : exn :=
  RuntimeError "Waypoint's k8s deployment not ready, is istio properly installed?".

(** Whether a poll's answer counts as ready. *)
Definition ready_answer (a : answer Deployment.t) : bool :=
  match a with
  | Found d => deployment_ready d
  | Failed => false
  end.

(** The [to] entries of the single rule in a policy resource's spec. *)
Definition to_entries (r : Resource) : option (list Py.value) :=
  match Py.dict_get "rules" (spec r) with
  | Some (Py.VList [rule]) =>
      match Py.dict_get "to" rule with
      | Some (Py.VList entries) => Some entries
      | _ => None
      end
  | _ => None
  end.

Definition is_log (e : Event) : Prop := exists l msg, e = Log l msg.

(** Three kinds of events: reads and patches of the namespace, the polls of
    the readiness wait, and what the sync does once the waypoint is ready. *)
Definition is_namespace_event (e : Event) : bool :=
  match e with
  | GetNamespace _ | PatchNamespace _ _ => true
  | _ => false
  end.

Definition is_readiness_event (e : Event) : bool :=
  match e with
  | GetDeployment _ _ | Sleep _ => true
  | _ => false
  end.

Definition is_gated_event (e : Event) : bool :=
  match e with
  | AddLayer _ | Replan | Reconcile AUTHORIZATION_POLICY_LABEL _ => true
  | _ => false
  end.

(** The events of the waypoint and label step, of the readiness wait, and of
    the steps behind it. *)
Definition waypoint_phase (e : Event) : Prop :=
  is_readiness_event e = false /\ is_gated_event e = false.

Definition readiness_phase (e : Event) : Prop :=
  is_namespace_event e = false /\ is_gated_event e = false.

Definition gated_phase (e : Event) : Prop :=
  is_namespace_event e = false /\ is_readiness_event e = false.

(** A computation that only appends events satisfying [P] to the trace. *)
Definition emits {A} (P : Event -> Prop) (m : M A) : Prop :=
  forall w, exists t, trace (snd (m w)) = (trace w ++ t)%list /\ Forall P t.

(** ** Concrete inputs *)

Definition beacon_config : Config :=
  {| ready_timeout := 30; manage_authorization_policies := true; model_on_mesh := true |}.

Definition beacon : Charm :=
  {| app_name := "beacon"; model_name := "mymodel"; config := beacon_config |}.

Definition namespace_with (L : labels_dict) : Namespace.t :=
  {| Namespace.metadata := Some (ObjectMeta.mk (Some "mymodel") None (Some L)) |}.

(** A leader's world: the given namespace labels, no deployment answer yet,
    nothing owned, no failing call. *)
Definition world_with (L : labels_dict) : World :=
  {| is_leader := true; mesh_info := [];
     namespace_object := Found (namespace_with L);
     deployment_answers := []; owned := fun _ => [];
     patch_fails := false; reconcile_fails := fun _ => false;
     can_connect := true; replan_fails := false; trace := [] |}.

(** Labels left by another owner: an Istio label and a foreign [managed-by]. *)
Definition foreign_labels : labels_dict :=
  labels_of [(USE_WAYPOINT, "other-waypoint"); (MANAGED_BY, "istio-othermodel")].

(** Only a foreign [managed-by], no Istio label. *)
Definition foreign_owner_only : labels_dict :=
  labels_of [(MANAGED_BY, "istio-othermodel")].

(** This charm's own three labels next to an unrelated one. *)
Definition own_labels : labels_dict :=
  labels_of [(USE_WAYPOINT, "beacon-mymodel-waypoint"); (DATAPLANE_MODE, "ambient");
             (MANAGED_BY, "beacon-mymodel"); ("team", "mesh")].

(** The same charm with a ready-timeout of 5 seconds. *)
Definition hasty : Charm :=
  {| app_name := "beacon"; model_name := "mymodel";
     config := {| ready_timeout := 5; manage_authorization_policies := true;
                  model_on_mesh := true |} |}.

(** A unit that is not the leader. *)
Definition follower_world : World :=
  {| is_leader := false; mesh_info := [];
     namespace_object := Found (namespace_with ∅);
     deployment_answers := []; owned := fun _ => [];
     patch_fails := false; reconcile_fails := fun _ => false;
     can_connect := true; replan_fails := false; trace := [] |}.

(** A deployment whose status carries neither replica count. *)
Definition countless_deployment : Deployment.t :=
  {| Deployment.status :=
       Some {| DeploymentStatus.readyReplicas := None;
               DeploymentStatus.replicas := None |} |}.

(** The spec's example intent, followed by an endpoint that leaves every
    list absent. *)
Definition example_policy : MeshPolicy.t :=
  {| MeshPolicy.source_app_name := "app-a";
     MeshPolicy.source_namespace := "ns1";
     MeshPolicy.target_app_name := "app-b";
     MeshPolicy.target_service := None;
     MeshPolicy.endpoints :=
       [ {| Endpoint.hosts := Some []; Endpoint.ports := Some [80];
            Endpoint.methods := Some []; Endpoint.paths := Some ["/x"] |};
         {| Endpoint.hosts := None; Endpoint.ports := None;
            Endpoint.methods := None; Endpoint.paths := None |} ] |}.

(** An intent whose target service is the empty string. *)
Definition blank_service_policy : MeshPolicy.t :=
  {| MeshPolicy.source_app_name := "app-a";
     MeshPolicy.source_namespace := "ns1";
     MeshPolicy.target_app_name := "app-b";
     MeshPolicy.target_service := Some "";
     MeshPolicy.endpoints := [] |}.

(** An intent with names of 100 characters each. *)
Definition long_name : string :=
  "aaaaaaaaaaaaaaaaaaaaaaaaaaaaaaaaaaaaaaaaaaaaaaaaaaaaaaaaaaaaaaaaaaaaaaaaaaaaaaaaaaaaaaaaaaaaaaaaaaaa".

Definition long_policy : MeshPolicy.t :=
  {| MeshPolicy.source_app_name := long_name;
     MeshPolicy.source_namespace := long_name;
     MeshPolicy.target_app_name := long_name;
     MeshPolicy.target_service := None;
     MeshPolicy.endpoints := [] |}.

From Stdlib Require Import Ascii.

(** ** Removal and the observed events *)

(** Modelled from the spec: [KubernetesResourceManager.delete], which the
    charm calls on removal but which is not among the sources.  The spec
    gives the teardown of a scope as its reconcile to the empty list, and the
    call is recorded as that reconcile. *)
Definition krm_delete (scope : Scope) : M unit := krm_reconcile scope [].

Section Hooks.
Context `{Hashing}.

(** The [for krm in (...): krm.delete()] loop. *)
Fixpoint delete_all (krms : list Scope) : M unit :=
  match krms with
  | [] => ret tt
  | krm :: rest => krm_delete krm ;;; delete_all rest
  end.

Definition _on_remove (self : Charm) : M unit :=
  _remove_labels self ;;;
  delete_all [_get_waypoint_resource_manager self;
              _get_authorization_policy_resource_manager self].

Definition _on_config_changed (self : Charm) : M unit := _sync_all_resources self.

Definition _metrics_proxy_pebble_ready (self : Charm) : M unit := _sync_all_resources self.

Definition on_mesh_changed (self : Charm) : M unit := _sync_all_resources self.

Definition on_mesh_broken (self : Charm) : M unit := _sync_all_resources self.

(** The events [__init__] observes, and the handler of each. *)
Inductive Hook :=
| config_changed
| remove
| metrics_proxy_pebble_ready
| service_mesh_relation_changed
| service_mesh_relation_broken.

Definition observe (self : Charm) (h : Hook) : M unit :=
  match h with
  | config_changed => _on_config_changed self
  | remove => _on_remove self
  | metrics_proxy_pebble_ready => _metrics_proxy_pebble_ready self
  | service_mesh_relation_changed => on_mesh_changed self
  | service_mesh_relation_broken => on_mesh_broken self
  end.

End Hooks.

(** ** Reading a run, continued *)

(** The seconds slept in a trace. *)
Fixpoint slept (t : list Event) : Z :=
  match t with
  | [] => 0
  | Sleep seconds :: rest => seconds + slept rest
  | _ :: rest => slept rest
  end.

(** A name without a slash, as Kubernetes names are. *)
Fixpoint no_slash (s : string) : bool :=
  match s with
  | EmptyString => true
  | String c rest => negb (Ascii.eqb c "/"%char) && no_slash rest
  end.

(** [d.get(k)] on a dict literal kept as a list of pairs. *)
Fixpoint pairs_get (k : string) (items : list (string * string)) : option string :=
  match items with
  | [] => None
  | (k', v) :: rest => if String.eqb k k' then Some v else pairs_get k rest
  end.

Definition not_active (e : Event) : Prop := e <> SetStatus ActiveStatus.

(** A computation that, when it returns, has [e] as its last event, and
    otherwise appends only events satisfying [P]. *)
Definition finishes_with {A} (e : Event) (P : Event -> Prop) (m : M A) : Prop :=
  forall w, exists t,
    trace (snd (m w)) = (trace w ++ t)%list
    /\ match fst (m w) with
       | Ok _ => exists t', t = (t' ++ [e])%list /\ Forall P t'
       | Raise _ => Forall P t
       end.

(** A computation that leaves a part [f] of the world as it was. *)
Definition keeps {A X} (f : World -> X) (m : M A) : Prop :=
  forall w, f (snd (m w)) = f w.

(** ** Concrete inputs, continued *)

(** Labels that have nothing to do with the mesh. *)
Definition team_labels : labels_dict := labels_of [("team", "mesh")].

(** The charm with the namespace left off the mesh. *)
Definition offmesh : Charm :=
  {| app_name := "beacon"; model_name := "mymodel";
     config := {| ready_timeout := 30; manage_authorization_policies := true;
                  model_on_mesh := false |} |}.

(** The line the builder logs for a policy without a target service. *)
Definition fallback_log (policy : MeshPolicy.t) : Event :=
  Log INFO ("Got policy for application '" ++ MeshPolicy.target_app_name policy
            ++ "' that has no target_service. Defaulting to application name '"
            ++ MeshPolicy.target_app_name policy ++ "'.").

Definition lacks_service (policy : MeshPolicy.t) : bool :=
  match MeshPolicy.target_service policy with
  | None => true
  | Some _ => false
  end.

(** The reconcile of the waypoint scope. *)
Definition is_waypoint_reconcile (e : Event) : bool :=
  match e with
  | Reconcile WAYPOINT_LABEL _ => true
  | _ => false
  end.

(** The label operation [_sync_waypoint_resources] chooses: the claim with
    [model-on-mesh] set, the release without. *)
Definition label_step (self : Charm) : M unit :=
  if model_on_mesh (config self) then _add_labels self else _remove_labels self.

(** A charm whose application name has 200 characters. *)
Definition wordy : Charm :=
  {| app_name := long_name ++ long_name; model_name := "mymodel";
     config := beacon_config |}.
(** ** Facts about Python strings *)

Lemma string_length_app (a b : string) :
  String.length (a ++ b) = (String.length a + String.length b)%nat.
Proof. induction a as [|c a IH]; simpl; [reflexivity | now rewrite IH]. Qed.

Lemma slice_to_length (n : nat) (s : string) :
  String.length (Py.slice_to n s) = Nat.min n (String.length s).
Proof.
  unfold Py.slice_to. revert s.
  induction n as [|n IH]; intros [|c s]; simpl; try reflexivity.
  now rewrite IH.
Qed.

Lemma slice_to_prefix (n : nat) (s : string) :
  exists rest, s = Py.slice_to n s ++ rest.
Proof.
  unfold Py.slice_to. revert s.
  induction n as [|n IH]; intros [|c s]; simpl.
  - now exists "".
  - now exists (String c s).
  - now exists "".
  - destruct (IH s) as [rest Hrest]. exists rest.
    change (String c s = String c (substring 0 n s ++ rest)).
    f_equal. exact Hrest.
Qed.

Lemma slice_to_short (n : nat) (s : string) :
  (String.length s <= n)%nat -> Py.slice_to n s = s.
Proof.
  unfold Py.slice_to. revert s.
  induction n as [|n IH]; intros [|c s]; simpl; intros Hlen; try reflexivity.
  - lia.
  - f_equal. apply IH. lia.
Qed.

Lemma padded_digest_length (s : string) : String.length (padded_digest s) = 64%nat.
Proof.
  unfold padded_digest. fold (Py.slice_to 64 (s ++ zeros64)).
  rewrite slice_to_length, string_length_app.
  change (String.length zeros64) with 64%nat. lia.
Qed.

#[export] Instance test_hashing : Hashing := {|
  sha256_hexdigest := padded_digest;
  pydantic_str := plain_str;
  sha256_hexdigest_length := padded_digest_length |}.

Lemma hash8_length `{Hashing} (p : MeshPolicy.t) :
  String.length (Py.slice_to 8 (_hash_pydantic_model p)) = 8%nat.
Proof.
  rewrite slice_to_length. unfold _hash_pydantic_model.
  rewrite sha256_hexdigest_length. reflexivity.
Qed.

Lemma join_name `{Hashing} (self : Charm) (a b c h : string) :
  Py.join "-" [app_name self; model_name self; "policy"; a; b; c; h]
  = name_format self a b c h.
Proof. reflexivity. Qed.

Lemma name_format_length (self : Charm) (a b c h : string) :
  String.length (name_format self a b c h)
  = (String.length (app_name self) + String.length (model_name self)
     + String.length a + String.length b + String.length c
     + String.length h + 12)%nat.
Proof.
  unfold name_format. rewrite !string_length_app. simpl. lia.
Qed.

(** ** The namespace labels *)

Ltac unfold_monad :=
  unfold log, set_status, sleep;
  unfold try_except, bind, emit, read, ret, raise.

Lemma patched_labels_lookup (sent current : labels_dict) (k : string) :
  patched_labels sent current !! k
  = match sent !! k with
    | Some (Some v) => Some (Some v)
    | Some None => None
    | None => current !! k
    end.
Proof.
  unfold patched_labels. rewrite lookup_merge.
  destruct (sent !! k) as [[v|]|], (current !! k); reflexivity.
Qed.

Lemma labels_get_patched (sent current : labels_dict) (k : string) :
  labels_get (patched_labels sent current) k
  = match sent !! k with
    | Some v => v
    | None => labels_get current k
    end.
Proof.
  unfold labels_get. rewrite patched_labels_lookup.
  destruct (sent !! k) as [[v|]|]; reflexivity.
Qed.

Lemma truthy_opt_str_spec (o : option string) :
  Py.truthy_opt_str o = true <-> exists v, o = Some v /\ v <> "".
Proof.
  destruct o as [[|c s]|]; simpl; split; intros Hyp;
    try discriminate; try reflexivity.
  - destruct Hyp as [v [Hv Hne]]. congruence.
  - exists (String c s). split; [reflexivity | discriminate].
  - destruct Hyp as [v [Hv _]]. discriminate.
Qed.

(** The guard of [_add_labels], read as a proposition. *)
Lemma add_labels_guard_spec (self : Charm) (L : labels_dict) :
  (Py.truthy_opt_str (labels_get L USE_WAYPOINT)
   || Py.truthy_opt_str (labels_get L DATAPLANE_MODE))
  && negb (bool_decide (labels_get L MANAGED_BY = Some (_app_identity self))) = true
  <-> istio_configured L /\ labels_get L MANAGED_BY <> Some (_app_identity self).
Proof.
  unfold istio_configured.
  rewrite andb_true_iff, orb_true_iff, negb_true_iff, bool_decide_eq_false,
    !truthy_opt_str_spec.
  reflexivity.
Qed.

Lemma labels_of_sent (m : ObjectMeta.t) (L : labels_dict) :
  labels_of_namespace {| Namespace.metadata := Some (ObjectMeta.with_labels m (Some L)) |} = L.
Proof. reflexivity. Qed.

Lemma labels_of_patched (sent current : Namespace.t) :
  labels_of_namespace (patched_namespace sent current)
  = patched_labels (labels_of_namespace sent) (labels_of_namespace current).
Proof. reflexivity. Qed.

Lemma patches_of_app (t1 t2 : list Event) :
  patches_of (t1 ++ t2)%list = (patches_of t1 ++ patches_of t2)%list.
Proof.
  induction t1 as [|e t1 IH]; simpl; [reflexivity|].
  destruct e; simpl; rewrite IH; reflexivity.
Qed.

Lemma polls_of_app (t1 t2 : list Event) :
  polls_of (t1 ++ t2)%list = (polls_of t1 + polls_of t2)%nat.
Proof.
  induction t1 as [|e t1 IH]; simpl; [reflexivity|].
  destruct e; simpl; rewrite IH; reflexivity.
Qed.

(** [_add_labels] on a namespace that can be read, as one equation. *)
Lemma add_labels_run (self : Charm) (w : World) (ns : Namespace.t) :
  namespace_object w = Found ns ->
  let L := labels_of_namespace ns in
  let m := default ObjectMeta.empty (Namespace.metadata ns) in
  let sent :=
    {| Namespace.metadata :=
         Some (ObjectMeta.with_labels m
                 (Some (<[MANAGED_BY := Some (_app_identity self)]>
                          (<[DATAPLANE_MODE := Some "ambient"]>
                             (<[USE_WAYPOINT := Some (_waypoint_name self)]> L))))) |} in
  let name := model_name self in
  _add_labels self w =
    if (Py.truthy_opt_str (labels_get L USE_WAYPOINT)
        || Py.truthy_opt_str (labels_get L DATAPLANE_MODE))
       && negb (bool_decide (labels_get L MANAGED_BY = Some (_app_identity self)))
    then (Ok tt, with_trace w (trace w ++ [GetNamespace name; Log ERROR (add_labels_error self)]))
    else if patch_fails w then
      (Ok tt, with_trace w (trace w ++ [GetNamespace name; PatchNamespace name sent;
                                        Log ERROR "Error patching namespace"]))
    else
      (Ok tt, with_trace (with_namespace_object w (Found (patched_namespace sent ns)))
                         (trace w ++ [GetNamespace name; PatchNamespace name sent])).
Proof.
  intros Hns L m sent name.
  unfold _add_labels, _get_namespace, _patch_namespace, client_get_namespace,
    client_patch_namespace.
  unfold_monad.
  simpl. rewrite Hns. simpl. fold m.
  assert (HL : default ∅ (ObjectMeta.labels m) = L).
  { unfold L, labels_of_namespace, m. destruct (Namespace.metadata ns); reflexivity. }
  rewrite HL.
  destruct ((Py.truthy_opt_str (labels_get L USE_WAYPOINT)
             || Py.truthy_opt_str (labels_get L DATAPLANE_MODE))
            && negb (bool_decide (labels_get L MANAGED_BY = Some (_app_identity self)))).
  - simpl. rewrite <- app_assoc. reflexivity.
  - simpl. destruct (patch_fails w); simpl.
    + rewrite <- !app_assoc. reflexivity.
    + rewrite Hns. rewrite <- !app_assoc. reflexivity.
Qed.

(** [_remove_labels] on a namespace that can be read, as one equation. *)
Lemma remove_labels_run (self : Charm) (w : World) (ns : Namespace.t) :
  namespace_object w = Found ns ->
  let L := labels_of_namespace ns in
  let m := default ObjectMeta.empty (Namespace.metadata ns) in
  let sent :=
    {| Namespace.metadata :=
         Some (ObjectMeta.with_labels m
                 (Some (<[MANAGED_BY := None]>
                          (<[DATAPLANE_MODE := None]>
                             (<[USE_WAYPOINT := None]> L))))) |} in
  let name := model_name self in
  _remove_labels self w =
    if bool_decide (L = ∅) then
      (Ok tt, with_trace w (trace w ++ [GetNamespace name]))
    else if negb (bool_decide (labels_get L MANAGED_BY = Some (_app_identity self))) then
      (Ok tt, with_trace w (trace w ++ [GetNamespace name;
                                        Log WARNING (remove_labels_warning self)]))
    else if patch_fails w then
      (Ok tt, with_trace w (trace w ++ [GetNamespace name; PatchNamespace name sent;
                                        Log ERROR "Error patching namespace"]))
    else
      (Ok tt, with_trace (with_namespace_object w (Found (patched_namespace sent ns)))
                         (trace w ++ [GetNamespace name; PatchNamespace name sent])).
Proof.
  intros Hns L m sent name.
  unfold _remove_labels, _get_namespace, _patch_namespace, client_get_namespace,
    client_patch_namespace.
  unfold_monad.
  simpl. rewrite Hns. simpl.
  subst sent m L. unfold labels_of_namespace.
  destruct (Namespace.metadata ns) as [md|] eqn:Hmd; simpl.
  2: { rewrite bool_decide_eq_true_2 by reflexivity. reflexivity. }
  destruct (ObjectMeta.labels md) as [L|] eqn:HL; simpl.
  2: { rewrite bool_decide_eq_true_2 by reflexivity. reflexivity. }
  destruct (bool_decide (L = ∅)); simpl; [reflexivity|].
  destruct (negb (bool_decide (labels_get L MANAGED_BY = Some (_app_identity self)))); simpl.
  - rewrite <- app_assoc. reflexivity.
  - destruct (patch_fails w); simpl.
    + rewrite <- !app_assoc. reflexivity.
    + rewrite Hns. rewrite <- !app_assoc. reflexivity.
Qed.

Lemma managed_keys_distinct :
  MANAGED_BY <> DATAPLANE_MODE /\ MANAGED_BY <> USE_WAYPOINT /\ DATAPLANE_MODE <> USE_WAYPOINT.
Proof. repeat split; discriminate. Qed.

Lemma claimed_labels_get (self : Charm) (L : labels_dict) (k : string) :
  labels_get (<[MANAGED_BY := Some (_app_identity self)]>
                (<[DATAPLANE_MODE := Some "ambient"]>
                   (<[USE_WAYPOINT := Some (_waypoint_name self)]> L))) k
  = claimed_value self L k.
Proof.
  unfold labels_get, claimed_value.
  destruct (decide (k = MANAGED_BY)) as [->|Hm].
  { rewrite lookup_insert_eq. reflexivity. }
  rewrite lookup_insert_ne by congruence.
  destruct (decide (k = DATAPLANE_MODE)) as [->|Hd].
  { rewrite lookup_insert_eq. reflexivity. }
  rewrite lookup_insert_ne by congruence.
  destruct (decide (k = USE_WAYPOINT)) as [->|Hu].
  { rewrite lookup_insert_eq. reflexivity. }
  rewrite lookup_insert_ne by congruence.
  reflexivity.
Qed.

Lemma released_labels_get (L : labels_dict) (k : string) :
  labels_get (<[MANAGED_BY := None]>
                (<[DATAPLANE_MODE := None]> (<[USE_WAYPOINT := None]> L))) k
  = released_value L k.
Proof.
  unfold labels_get, released_value.
  destruct (decide (k = MANAGED_BY)) as [->|Hm].
  { rewrite lookup_insert_eq. reflexivity. }
  rewrite lookup_insert_ne by congruence.
  destruct (decide (k = DATAPLANE_MODE)) as [->|Hd].
  { rewrite lookup_insert_eq. reflexivity. }
  rewrite lookup_insert_ne by congruence.
  destruct (decide (k = USE_WAYPOINT)) as [->|Hu].
  { rewrite lookup_insert_eq. reflexivity. }
  rewrite lookup_insert_ne by congruence.
  reflexivity.
Qed.

(** After the patch, a key reads as it read in the body that was sent,
    whenever the body was the old labels updated at some keys. *)
Lemma labels_get_after_patch (sent current : labels_dict) (k : string) :
  (sent !! k = None -> current !! k = None) ->
  labels_get (patched_labels sent current) k = labels_get sent k.
Proof.
  intros Hk. rewrite labels_get_patched. unfold labels_get.
  destruct (sent !! k) as [v|] eqn:Hs; [reflexivity|].
  rewrite (Hk eq_refl). reflexivity.
Qed.

Lemma insert3_None (L : labels_dict) (a b c k : string) (x y z : option string) :
  <[a := x]> (<[b := y]> (<[c := z]> L)) !! k = None -> L !! k = None.
Proof.
  intros Hk.
  destruct (decide (a = k)) as [->|Ha]; [rewrite lookup_insert_eq in Hk; discriminate|].
  rewrite lookup_insert_ne in Hk by exact Ha.
  destruct (decide (b = k)) as [->|Hb]; [rewrite lookup_insert_eq in Hk; discriminate|].
  rewrite lookup_insert_ne in Hk by exact Hb.
  destruct (decide (c = k)) as [->|Hc]; [rewrite lookup_insert_eq in Hk; discriminate|].
  rewrite lookup_insert_ne in Hk by exact Hc.
  exact Hk.
Qed.

(** C1 (amended): on a namespace that can be read, [_add_labels] logs its
    error and sends no patch, leaving the world as it was but for the trace,
    exactly when [use-waypoint] or [dataplane-mode] is present with a
    non-empty value and [managed-by] is absent or differs from this charm's
    identity.  In every other state it returns normally after sending exactly
    one patch whose labels are the old ones with the three managed keys set
    to this identity's values, and, when the patch is accepted, the
    namespace's labels read that way too. *)
Theorem C1_claim_guard (self : Charm) (w : World) (ns : Namespace.t) :
  namespace_object w = Found ns ->
  let L := labels_of_namespace ns in
  let r := _add_labels self w in
  (istio_configured L
   /\ labels_get L MANAGED_BY <> Some (_app_identity self)
   /\ r = (Ok tt, with_trace w (trace w ++ [GetNamespace (model_name self);
                                            Log ERROR (add_labels_error self)])))
  \/
  (~ (istio_configured L /\ labels_get L MANAGED_BY <> Some (_app_identity self))
   /\ fst r = Ok tt
   /\ exists sent,
        patches_of (trace (snd r)) = (patches_of (trace w) ++ [sent])%list
        /\ (forall k, labels_get (labels_of_namespace sent) k = claimed_value self L k)
        /\ (patch_fails w = false ->
            forall k, labels_get (namespace_labels (snd r)) k = claimed_value self L k)).
Proof.
  intros Hns L r. subst r.
  rewrite (add_labels_run self w ns Hns). fold L.
  pose proof (add_labels_guard_spec self L) as Hguard.
  destruct ((Py.truthy_opt_str (labels_get L USE_WAYPOINT)
             || Py.truthy_opt_str (labels_get L DATAPLANE_MODE))
            && negb (bool_decide (labels_get L MANAGED_BY = Some (_app_identity self)))).
  - left. destruct (proj1 Hguard eq_refl) as [Hc Hm]. auto.
  - right. split.
    { intros Hc. apply Hguard in Hc. discriminate. }
    destruct (patch_fails w) eqn:Hpf; simpl; (split; [reflexivity|]);
      eexists; (split; [|split]).
    + rewrite patches_of_app. simpl. reflexivity.
    + intros k. rewrite labels_of_sent. apply claimed_labels_get.
    + discriminate.
    + rewrite patches_of_app. simpl. reflexivity.
    + intros k. rewrite labels_of_sent. apply claimed_labels_get.
    + intros _ k. unfold namespace_labels. simpl.
      rewrite labels_of_patched, labels_of_sent.
      rewrite labels_get_after_patch by apply insert3_None.
      apply claimed_labels_get.
Qed.

(** C8 (amended): on a namespace that can be read, [_remove_labels] returns
    silently, without warning or patch, when the namespace has no labels at
    all; it logs its warning and sends no patch when there are labels and
    [managed-by] is absent or differs from this charm's identity; otherwise
    it sends exactly one patch that asks for the three managed keys to be
    removed and repeats every other label, so that, when the patch is
    accepted, the three keys are gone and every other label reads as
    before. *)
Theorem C8_release_guard (self : Charm) (w : World) (ns : Namespace.t) :
  namespace_object w = Found ns ->
  let L := labels_of_namespace ns in
  let r := _remove_labels self w in
  (L = ∅
   /\ r = (Ok tt, with_trace w (trace w ++ [GetNamespace (model_name self)])))
  \/
  (L <> ∅
   /\ labels_get L MANAGED_BY <> Some (_app_identity self)
   /\ r = (Ok tt, with_trace w (trace w ++ [GetNamespace (model_name self);
                                            Log WARNING (remove_labels_warning self)])))
  \/
  (L <> ∅
   /\ labels_get L MANAGED_BY = Some (_app_identity self)
   /\ fst r = Ok tt
   /\ exists sent,
        patches_of (trace (snd r)) = (patches_of (trace w) ++ [sent])%list
        /\ (forall k, labels_get (labels_of_namespace sent) k = released_value L k)
        /\ (patch_fails w = false ->
            forall k, labels_get (namespace_labels (snd r)) k = released_value L k)).
Proof.
  intros Hns L r. subst r.
  rewrite (remove_labels_run self w ns Hns). fold L.
  destruct (bool_decide (L = ∅)) eqn:Hempty.
  { left. apply bool_decide_eq_true in Hempty. auto. }
  apply bool_decide_eq_false in Hempty. right.
  destruct (bool_decide (labels_get L MANAGED_BY = Some (_app_identity self))) eqn:Hmine; simpl.
  2: { left. apply bool_decide_eq_false in Hmine. auto. }
  apply bool_decide_eq_true in Hmine. right.
  split; [exact Hempty|]. split; [exact Hmine|].
  destruct (patch_fails w) eqn:Hpf; simpl; (split; [reflexivity|]);
    eexists; (split; [|split]).
  - rewrite patches_of_app. simpl. reflexivity.
  - intros k. rewrite labels_of_sent. apply released_labels_get.
  - discriminate.
  - rewrite patches_of_app. simpl. reflexivity.
  - intros k. rewrite labels_of_sent. apply released_labels_get.
  - intros _ k. unfold namespace_labels. simpl.
    rewrite labels_of_patched, labels_of_sent.
    rewrite labels_get_after_patch by apply insert3_None.
    apply released_labels_get.
Qed.

(** The guard at work: an Istio label and a foreign owner block the claim. *)
Lemma C1_claim_guard_witness :
  namespace_object (world_with foreign_labels) = Found (namespace_with foreign_labels)
  /\ _add_labels beacon (world_with foreign_labels)
     = (Ok tt, with_trace (world_with foreign_labels)
                 [GetNamespace "mymodel"; Log ERROR (add_labels_error beacon)]).
Proof.
  split; [reflexivity|].
  destruct (C1_claim_guard beacon (world_with foreign_labels)
              (namespace_with foreign_labels) eq_refl)
    as [[_ [_ Hr]] | [Hn _]].
  - exact Hr.
  - exfalso. apply Hn. split.
    + left. exists "other-waypoint". split; [vm_compute; reflexivity | discriminate].
    + vm_compute. discriminate.
Defined.

(** C1, as stated, fails: with [managed-by] present and naming another
    owner, but neither Istio label set, [_add_labels] does not stop; it
    sends a patch and the namespace ends up claimed by this charm. *)
Lemma C1_counterexample :
  labels_get foreign_owner_only MANAGED_BY = Some "istio-othermodel"
  /\ "istio-othermodel" <> _app_identity beacon
  /\ length (patches_of (trace (snd (_add_labels beacon (world_with foreign_owner_only))))) = 1%nat
  /\ labels_get (namespace_labels (snd (_add_labels beacon (world_with foreign_owner_only))))
       MANAGED_BY = Some "beacon-mymodel".
Proof.
  split; [vm_compute; reflexivity|].
  split; [vm_compute; discriminate|].
  split; vm_compute; reflexivity.
Qed.

(** The release at work: this charm's own labels go, the unrelated one stays. *)
Lemma C8_release_guard_witness :
  namespace_object (world_with own_labels) = Found (namespace_with own_labels)
  /\ fst (_remove_labels beacon (world_with own_labels)) = Ok tt
  /\ (forall k,
        labels_get (namespace_labels (snd (_remove_labels beacon (world_with own_labels)))) k
        = released_value own_labels k).
Proof.
  split; [reflexivity|].
  destruct (C8_release_guard beacon (world_with own_labels)
              (namespace_with own_labels) eq_refl)
    as [[He _] | [[_ [Hm _]] | [_ [_ [Hr [sent [_ [_ Hafter]]]]]]]].
  - exfalso. apply (f_equal (fun L : labels_dict => L !! "team")) in He.
    vm_compute in He. discriminate.
  - exfalso. apply Hm. vm_compute. reflexivity.
  - split; [exact Hr | exact (Hafter eq_refl)].
Defined.

(** C8, as stated, fails: on a namespace without labels [managed-by] is
    absent, yet [_remove_labels] logs no warning; the read of the namespace
    is the only thing it does. *)
Lemma C8_counterexample :
  labels_get ∅ MANAGED_BY = None
  /\ _remove_labels beacon (world_with ∅)
     = (Ok tt, with_trace (world_with ∅) [GetNamespace "mymodel"]).
Proof.
  split; [reflexivity|].
  rewrite (remove_labels_run beacon (world_with ∅) (namespace_with ∅) eq_refl).
  reflexivity.
Qed.

(** ** The readiness wait *)

Lemma range_length (n : Z) : length (Py.range n) = Z.to_nat n.
Proof. unfold Py.range. apply length_seq. Qed.

Lemma deployment_ready_spec (d : Deployment.t) :
  deployment_ready d = true
  <-> exists st, Deployment.status d = Some st
                 /\ DeploymentStatus.readyReplicas st = DeploymentStatus.replicas st.
Proof.
  unfold deployment_ready. destruct (Deployment.status d) as [st|]; split.
  - intros Hr. apply bool_decide_eq_true in Hr. eauto.
  - intros [st' [Hst Heq]]. injection Hst as <-. apply bool_decide_eq_true. exact Heq.
  - discriminate.
  - intros [st' [Hst _]]. discriminate.
Qed.

(** The loop, by induction on the iterations left: it never raises, it
    answers whether one of the answers it consumed was ready, and it polls
    at most once per iteration. *)
Lemma poll_deployment_run (self : Charm) (check_interval : Z) (iterations : list nat) :
  forall w : World,
  exists t w',
    poll_deployment self check_interval iterations w
    = (Ok (existsb ready_answer (take (length iterations) (deployment_answers w))), w')
    /\ trace w' = (trace w ++ t)%list
    /\ (polls_of t <= length iterations)%nat.
Proof.
  induction iterations as [|i rest IH]; intros w.
  - exists [], w. simpl. rewrite app_nil_r. repeat split. lia.
  - simpl. unfold client_get_deployment. unfold_monad.
    destruct (deployment_answers w) as [|[d|] answers] eqn:Hans; simpl.
    + rewrite Hans. cbn.
      match goal with |- context [poll_deployment _ _ _ ?w1] =>
        destruct (IH w1) as [t [w' [Hrun [Htrace Hpolls]]]] end.
      simpl in Hrun, Htrace. rewrite Hans in Hrun. rewrite take_nil in Hrun.
      eexists _, w'. split; [exact Hrun|]. split.
      * rewrite Htrace, <- !app_assoc. reflexivity.
      * rewrite !polls_of_app. simpl. lia.
    + rewrite Hans. destruct (deployment_ready d) eqn:Hready; cbn.
      * eexists _, _. split; [reflexivity|]. simpl. split; [reflexivity|]. simpl. lia.
      * match goal with |- context [poll_deployment _ _ _ ?w1] =>
          destruct (IH w1) as [t [w' [Hrun [Htrace Hpolls]]]] end.
        simpl in Hrun, Htrace.
        eexists _, w'. split; [exact Hrun|]. split.
        -- rewrite Htrace, <- !app_assoc. reflexivity.
        -- rewrite !polls_of_app. simpl. lia.
    + rewrite Hans. cbn.
      match goal with |- context [poll_deployment _ _ _ ?w1] =>
        destruct (IH w1) as [t [w' [Hrun [Htrace Hpolls]]]] end.
      simpl in Hrun, Htrace.
      eexists _, w'. split; [exact Hrun|]. split.
      * rewrite Htrace, <- !app_assoc. reflexivity.
      * rewrite !polls_of_app. simpl. lia.
Qed.

(** C7: the readiness wait never raises; it returns [true] exactly when one
    of the first [timeout // 10] answers of the cluster is a deployment whose
    status is present with [readyReplicas == replicas], a failed lookup or an
    absent status counting as not ready; and it polls at most
    [timeout // 10] times, so at most 3 times for a timeout of 30. *)
Theorem C7_readiness_wait (self : Charm) (w : World) :
  let attempts := Z.to_nat (ready_timeout (config self) / 10) in
  exists t w',
    _is_waypoint_deployment_ready self w
    = (Ok (existsb ready_answer (take attempts (deployment_answers w))), w')
    /\ trace w' = (trace w ++ t)%list
    /\ (polls_of t <= attempts)%nat
    /\ (ready_timeout (config self) = 30 -> (polls_of t <= 3)%nat)
    /\ ready_answer Failed = false
    /\ ready_answer (Found {| Deployment.status := None |}) = false
    /\ (forall d, ready_answer (Found d) = true
                  <-> exists st, Deployment.status d = Some st
                                 /\ DeploymentStatus.readyReplicas st
                                    = DeploymentStatus.replicas st).
Proof.
  intros attempts. unfold _is_waypoint_deployment_ready.
  destruct (poll_deployment_run self 10 (Py.range (ready_timeout (config self) / 10)) w)
    as [t [w' [Hrun [Htrace Hpolls]]]].
  rewrite range_length in Hrun, Hpolls. fold attempts in Hrun, Hpolls.
  exists t, w'. split; [exact Hrun|]. split; [exact Htrace|]. split; [exact Hpolls|].
  split.
  { intros H30. subst attempts. rewrite H30 in Hpolls. exact Hpolls. }
  split; [reflexivity|]. split; [reflexivity|].
  intros d. apply deployment_ready_spec.
Qed.

(** C9 (amended): with a ready-timeout below 10 the quotient by the 10-second
    interval is at most zero (zero for a timeout that is not negative), the
    loop has no iteration, the readiness check returns [false] without
    touching the cluster or the trace, and every sync run on the leader
    whose waypoint and label step completes raises the readiness error. *)
Theorem C9_short_timeout `{Hashing} (self : Charm) (w : World) :
  ready_timeout (config self) < 10 ->
  Py.range (ready_timeout (config self) / 10) = []
  /\ (0 <= ready_timeout (config self) -> ready_timeout (config self) / 10 = 0)
  /\ _is_waypoint_deployment_ready self w = (Ok false, w)
  /\ (is_leader w = true ->
      forall w1,
        (set_status (MaintenanceStatus "Validating waypoint readiness") ;;;
         _sync_waypoint_resources self) w = (Ok tt, w1) ->
        _sync_all_resources self w = (Raise readiness_error, w1)).
Proof.
  intros Hshort.
  assert (Hrange : Py.range (ready_timeout (config self) / 10) = []).
  { unfold Py.range.
    assert (Hq : ready_timeout (config self) / 10 <= 0).
    { apply Z.lt_succ_r. apply Z.div_lt_upper_bound; lia. }
    replace (Z.to_nat (ready_timeout (config self) / 10)) with 0%nat by lia.
    reflexivity. }
  assert (Hready : forall w0, _is_waypoint_deployment_ready self w0 = (Ok false, w0)).
  { intros w0. unfold _is_waypoint_deployment_ready. rewrite Hrange. reflexivity. }
  split; [exact Hrange|]. split.
  { intros Hnonneg. apply Z.div_small. lia. }
  split; [apply Hready|].
  intros Hleader w1 Hstep.
  unfold _sync_all_resources, _is_waypoint_ready.
  unfold bind at 1. unfold read at 1. rewrite Hleader. simpl.
  unfold bind at 1. unfold bind at 1 in Hstep.
  destruct (set_status (MaintenanceStatus "Validating waypoint readiness") w)
    as [[[]|e] w0]; [|discriminate].
  unfold bind at 1. rewrite Hstep.
  unfold bind at 1. unfold bind at 1. rewrite Hready. reflexivity.
Qed.

(** C10: a poll that finds the status present with both replica counts
    absent judges the deployment ready, and the readiness check returns
    [true]. *)
Theorem C10_absent_counts_ready (self : Charm) (w : World) (k : nat)
    (d : Deployment.t) (st : DeploymentStatus.t) :
  (k < Z.to_nat (ready_timeout (config self) / 10))%nat ->
  deployment_answers w !! k = Some (Found d) ->
  Deployment.status d = Some st ->
  DeploymentStatus.readyReplicas st = None ->
  DeploymentStatus.replicas st = None ->
  deployment_ready d = true
  /\ fst (_is_waypoint_deployment_ready self w) = Ok true.
Proof.
  intros Hk Hans Hst Hr Hd.
  assert (Hready : deployment_ready d = true).
  { apply deployment_ready_spec. exists st. split; [exact Hst | congruence]. }
  split; [exact Hready|].
  unfold _is_waypoint_deployment_ready.
  destruct (poll_deployment_run self 10 (Py.range (ready_timeout (config self) / 10)) w)
    as [t [w' [Hrun _]]].
  rewrite Hrun. simpl. f_equal.
  apply existsb_exists. exists (Found d). split; [|exact Hready].
  apply list_elem_of_In. apply list_elem_of_lookup. exists k.
  rewrite lookup_take_lt; [exact Hans|]. rewrite range_length. exact Hk.
Qed.

(** A timeout of 5 on the leader: no poll, and the run ends in the readiness error. *)
Lemma C9_short_timeout_witness :
  ready_timeout (config hasty) < 10
  /\ _is_waypoint_deployment_ready hasty (world_with ∅) = (Ok false, world_with ∅)
  /\ fst (_sync_all_resources hasty (world_with ∅)) = Raise readiness_error.
Proof.
  assert (Hshort : ready_timeout (config hasty) < 10) by (simpl; lia).
  destruct (C9_short_timeout (H := test_hashing) hasty (world_with ∅) Hshort)
    as [_ [_ [Hready Hsync]]].
  split; [exact Hshort|]. split; [exact Hready|].
  rewrite (Hsync eq_refl
             (snd ((set_status (MaintenanceStatus "Validating waypoint readiness") ;;;
                    _sync_waypoint_resources hasty) (world_with ∅)))).
  - reflexivity.
  - vm_compute. reflexivity.
Defined.

(** C9, as stated, fails: on a unit that is not the leader a sync run with a
    ready-timeout of 5 sets the blocked status and returns; no error is
    raised. *)
Lemma C9_counterexample :
  ready_timeout (config hasty) < 10
  /\ _sync_all_resources hasty follower_world
     = (Ok tt,
        with_trace follower_world
          [SetStatus (BlockedStatus "Waypoint can only be provided on the leader unit.")]).
Proof. split; [simpl; lia | reflexivity]. Qed.

(** The first poll finds a status without replica counts. *)
Lemma C10_absent_counts_ready_witness :
  (0 < Z.to_nat (ready_timeout (config beacon) / 10))%nat
  /\ deployment_ready countless_deployment = true
  /\ fst (_is_waypoint_deployment_ready beacon
            (with_deployment_answers (world_with ∅) [Found countless_deployment]))
     = Ok true.
Proof.
  assert (Hk : (0 < Z.to_nat (ready_timeout (config beacon) / 10))%nat)
    by (vm_compute; lia).
  split; [exact Hk|].
  exact (C10_absent_counts_ready beacon
           (with_deployment_answers (world_with ∅) [Found countless_deployment])
           0 countless_deployment _ Hk eq_refl eq_refl eq_refl eq_refl).
Defined.

(** A timeout of 30 against a deployment that never shows up: three polls,
    then [false]. *)
Example readiness_three_polls :
  fst (_is_waypoint_deployment_ready beacon (world_with ∅)) = Ok false
  /\ polls_of (trace (snd (_is_waypoint_deployment_ready beacon (world_with ∅)))) = 3%nat.
Proof. split; vm_compute; reflexivity. Qed.

(** ** Policy names *)

(** C4 (amended): for a charm whose application and model names have at most
    63 characters each, as the source's comment takes them to have, the name
    is [{app}-{model}-policy-{source}-{namespace}-{target}-{hash8}] when that
    has at most 253 characters; otherwise the three middle parts are each cut
    to their first 30 characters, the hash part stays the first 8 characters
    of the digest of the whole, untruncated policy, and the result has at
    most 253 characters. *)
Theorem C4_policy_name `{Hashing} (self : Charm) (policy : MeshPolicy.t) :
  (String.length (app_name self) <= 63)%nat ->
  (String.length (model_name self) <= 63)%nat ->
  let source := MeshPolicy.source_app_name policy in
  let namespace := MeshPolicy.source_namespace policy in
  let target := MeshPolicy.target_app_name policy in
  let hash8 := Py.slice_to 8 (_hash_pydantic_model policy) in
  let assembled := name_format self source namespace target hash8 in
  let name := _generate_authorization_policy_name self policy in
  String.length hash8 = 8%nat
  /\ ((String.length assembled <= 253)%nat -> name = assembled)
  /\ ((253 < String.length assembled)%nat ->
      name = name_format self (Py.slice_to 30 source) (Py.slice_to 30 namespace)
               (Py.slice_to 30 target) hash8
      /\ (String.length name <= 253)%nat).
Proof.
  intros Happ Hmodel source namespace target hash8 assembled name.
  pose proof (hash8_length policy) as Hhash. fold hash8 in Hhash.
  split; [exact Hhash|].
  subst name. unfold _generate_authorization_policy_name.
  rewrite !join_name. fold source namespace target hash8 assembled.
  split.
  - intros Hfits.
    destruct (253 <? String.length assembled)%nat eqn:Hcmp; [|reflexivity].
    apply Nat.ltb_lt in Hcmp. lia.
  - intros Hlong.
    destruct (253 <? String.length assembled)%nat eqn:Hcmp.
    + split; [reflexivity|].
      rewrite name_format_length, !slice_to_length, Hhash. lia.
    + apply Nat.ltb_ge in Hcmp. lia.
Qed.

(** Three names of 100 characters are cut to 30 each; the hash part is kept. *)
Lemma C4_policy_name_witness :
  (String.length (app_name beacon) <= 63)%nat
  /\ (String.length (model_name beacon) <= 63)%nat
  /\ (253 < String.length
              (name_format beacon long_name long_name long_name
                 (Py.slice_to 8 (_hash_pydantic_model long_policy))))%nat
  /\ _generate_authorization_policy_name beacon long_policy
     = "beacon-mymodel-policy-aaaaaaaaaaaaaaaaaaaaaaaaaaaaaa-aaaaaaaaaaaaaaaaaaaaaaaaaaaaaa-aaaaaaaaaaaaaaaaaaaaaaaaaaaaaa-"
       ++ Py.slice_to 8 (_hash_pydantic_model long_policy)
  /\ (String.length (_generate_authorization_policy_name beacon long_policy) <= 253)%nat.
Proof.
  assert (Happ : (String.length (app_name beacon) <= 63)%nat) by (vm_compute; lia).
  assert (Hmodel : (String.length (model_name beacon) <= 63)%nat) by (vm_compute; lia).
  assert (Hlong : (253 < String.length
                           (name_format beacon long_name long_name long_name
                              (Py.slice_to 8 (_hash_pydantic_model long_policy))))%nat)
    by (vm_compute; lia).
  destruct (C4_policy_name (H := test_hashing) beacon long_policy Happ Hmodel)
    as [_ [_ Htrunc]].
  destruct (Htrunc Hlong) as [Hname Hbound].
  split; [exact Happ|]. split; [exact Hmodel|]. split; [exact Hlong|].
  split; [exact Hname | exact Hbound].
Defined.

(** C4, as stated, fails: the code never checks the lengths of the charm's
    own names; with an application name of 200 characters the name is cut
    and still has more than 253 characters. *)
Lemma C4_counterexample :
  String.length (app_name wordy) = 200%nat
  /\ (253 < String.length
              (name_format wordy long_name long_name long_name
                 (Py.slice_to 8 (_hash_pydantic_model long_policy))))%nat
  /\ String.length (_generate_authorization_policy_name wordy long_policy) = 317%nat.
Proof. repeat split; vm_compute; try lia; reflexivity. Qed.

(** ** The policy builder *)

Section Builder.
Context `{Hashing}.

(** The loop leaves in the list what the assignments
    [authorization_policies[i] = ...] leave, and only logs. *)
Lemma build_loop_run (self : Charm) (items : list (nat * MeshPolicy.t)) :
  forall (acc : list (option Resource)) (w : World),
  exists logs,
    build_loop self items acc w
    = (Ok (foldl (fun a ip => <[fst ip := Some (resource_of_policy self (snd ip))]> a)
                 acc items),
       with_trace w (trace w ++ logs)%list)
    /\ Forall is_log logs.
Proof.
  induction items as [|[i policy] rest IH]; intros acc w.
  - exists []. simpl. rewrite app_nil_r. split; [destruct w; reflexivity | constructor].
  - simpl. unfold_monad.
    destruct (MeshPolicy.target_service policy) as [svc|]; cbn.
    + destruct (IH (<[i := Some (resource_of_policy self policy)]> acc) w)
        as [logs [Hrun Hlogs]].
      exists logs. split; [exact Hrun | exact Hlogs].
    + match goal with |- context [build_loop _ _ _ (with_trace w (_ ++ [?e])%list)] =>
        destruct (IH (<[i := Some (resource_of_policy self policy)]> acc)
                     (with_trace w (trace w ++ [e])%list))
          as [logs [Hrun Hlogs]];
        exists (e :: logs)
      end.
      split.
      * rewrite Hrun. cbn. rewrite <- app_assoc. reflexivity.
      * constructor; [eexists _, _; reflexivity | exact Hlogs].
Qed.

(** Assigning slot by slot into the preallocated list is a [map]. *)
Lemma assign_slots {A B} (g : A -> B) (todo : list A) :
  forall done : list A,
    foldl (fun a ip => <[fst ip := Some (g (snd ip))]> a)
          ((Some ∘ g <$> done) ++ replicate (length todo) None)%list
          (imap (fun i p => (length done + i, p)%nat) todo)
    = (Some ∘ g <$> (done ++ todo))%list.
Proof.
  induction todo as [|p todo IH]; intros done.
  - simpl. rewrite !app_nil_r. reflexivity.
  - rewrite imap_cons. simpl foldl. simpl replicate.
    replace (length done + 0)%nat with (length (Some ∘ g <$> done) + 0)%nat
      by (rewrite length_fmap; reflexivity).
    rewrite (insert_app_r (Some ∘ g <$> done) _ 0). simpl.
    specialize (IH (done ++ [p])%list).
    rewrite fmap_app, <- app_assoc in IH. simpl in IH.
    rewrite <- (app_assoc done [p] todo) in IH. simpl in IH.
    rewrite <- IH. f_equal.
    apply imap_ext. intros i x _. simpl. rewrite length_app. simpl.
    f_equal. lia.
Qed.

Lemma build_authorization_policies_run (self : Charm) (infos : list MeshPolicy.t) (w : World) :
  exists logs,
    _build_authorization_policies self infos w
    = (Ok (map (fun p => Some (resource_of_policy self p)) infos),
       with_trace w (trace w ++ logs)%list)
    /\ Forall is_log logs.
Proof.
  unfold _build_authorization_policies, enumerate.
  destruct (build_loop_run self (imap pair infos) (replicate (length infos) None) w)
    as [logs [Hrun Hlogs]].
  exists logs. split; [|exact Hlogs].
  rewrite Hrun. f_equal. f_equal.
  exact (assign_slots (resource_of_policy self) infos []).
Qed.

End Builder.

Lemma operation_dump_fields (endpoint : Endpoint.t) :
  let op := Operation.model_dump (operation_of_endpoint endpoint) in
  Py.dict_get "ports" op
  = Some (dump_strs (map Py.str_int (default [] (Endpoint.ports endpoint))))
  /\ Py.dict_get "hosts" op = dump_strs <$> Endpoint.hosts endpoint
  /\ Py.dict_get "methods" op = dump_strs <$> Endpoint.methods endpoint
  /\ Py.dict_get "paths" op = dump_strs <$> Endpoint.paths endpoint
  /\ Py.dict_get "notHosts" op = None
  /\ Py.dict_get "notMethods" op = None
  /\ Py.dict_get "notPaths" op = None.
Proof.
  destruct endpoint as [[h|] [[|p ps]|] [m|] [pa|]]; repeat split; reflexivity.
Qed.

(** C2 (amended): the rule of the built policy has one [to] entry per
    endpoint, in order, each holding one operation.  The operation always
    carries [ports]: the string forms of the endpoint's ports, and the empty
    list when the endpoint's ports are absent or empty.  It carries [hosts],
    [methods] and [paths] exactly when the endpoint has them, verbatim, and
    omits them when they are absent; the negated lists are never emitted. *)
Theorem C2_destination_entries `{Hashing} (self : Charm) (policy : MeshPolicy.t) :
  exists entries,
    to_entries (resource_of_policy self policy) = Some entries
    /\ length entries = length (MeshPolicy.endpoints policy)
    /\ forall i endpoint,
         MeshPolicy.endpoints policy !! i = Some endpoint ->
         exists op,
           entries !! i = Some (Py.VDict [("operation", op)])
           /\ Py.dict_get "ports" op
              = Some (dump_strs (map Py.str_int (default [] (Endpoint.ports endpoint))))
           /\ Py.dict_get "hosts" op = dump_strs <$> Endpoint.hosts endpoint
           /\ Py.dict_get "methods" op = dump_strs <$> Endpoint.methods endpoint
           /\ Py.dict_get "paths" op = dump_strs <$> Endpoint.paths endpoint
           /\ Py.dict_get "notHosts" op = None
           /\ Py.dict_get "notMethods" op = None
           /\ Py.dict_get "notPaths" op = None.
Proof.
  exists (map (fun endpoint =>
                 Py.VDict [("operation",
                            Operation.model_dump (operation_of_endpoint endpoint))])
              (MeshPolicy.endpoints policy)).
  split.
  { unfold to_entries. simpl. rewrite map_map. reflexivity. }
  split; [apply length_map|].
  intros i endpoint Hi.
  exists (Operation.model_dump (operation_of_endpoint endpoint)).
  split.
  { change (map ?f ?l) with (f <$> l). rewrite list_lookup_fmap, Hi. reflexivity. }
  apply operation_dump_fields.
Qed.

(** C2, as stated, fails: an endpoint whose lists are all absent yields an
    operation in which [ports] is emitted as the empty list instead of being
    omitted. *)
Lemma C2_counterexample :
  (Endpoint.ports <$> MeshPolicy.endpoints example_policy !! 1%nat) = Some None
  /\ to_entries (resource_of_policy beacon example_policy)
     = Some [ Py.VDict [("operation",
                         Py.VDict [("hosts", Py.VList []);
                                   ("ports", Py.VList [Py.VStr "80"]);
                                   ("methods", Py.VList []);
                                   ("paths", Py.VList [Py.VStr "/x"])])];
              Py.VDict [("operation", Py.VDict [("ports", Py.VList [])])] ].
Proof. split; reflexivity. Qed.

(** C6 (amended): the builder returns one resource per policy, in the order
    of the policies, each computed from its own policy alone, and touches
    nothing but the log.  The resource targets the Service named by
    [target_service] when that is present and not empty, and by
    [target_app_name] otherwise; its single rule has the single source
    principal [cluster.local/ns/{model}/sa/{source_app_name}], in this
    charm's own model whatever the source's namespace. *)
Theorem C6_build `{Hashing} (self : Charm) (infos : list MeshPolicy.t) (w : World) :
  (exists logs,
     _build_authorization_policies self infos w
     = (Ok (map (fun p => Some (resource_of_policy self p)) infos),
        with_trace w (trace w ++ logs)%list)
     /\ Forall is_log logs)
  /\ length (map (fun p => Some (resource_of_policy self p)) infos) = length infos
  /\ forall policy,
       let target :=
         match MeshPolicy.target_service policy with
         | Some service =>
             if decide (service = "") then MeshPolicy.target_app_name policy else service
         | None => MeshPolicy.target_app_name policy
         end in
       let principal :=
         "cluster.local/ns/" ++ model_name self ++ "/sa/"
         ++ MeshPolicy.source_app_name policy in
       kind (resource_of_policy self policy) = AuthorizationPolicy
       /\ ObjectMeta.name (metadata (resource_of_policy self policy))
          = Some (_generate_authorization_policy_name self policy)
       /\ ObjectMeta.namespace (metadata (resource_of_policy self policy))
          = Some (model_name self)
       /\ spec (resource_of_policy self policy)
          = Py.VDict
              [("targetRefs",
                Py.VList [Py.VDict [("group", Py.VStr ""); ("kind", Py.VStr "Service");
                                    ("name", Py.VStr target)]]);
               ("rules",
                Py.VList
                  [Py.VDict
                     [("from",
                       Py.VList
                         [Py.VDict
                            [("source",
                              Py.VDict [("principals", Py.VList [Py.VStr principal])])]]);
                      ("to",
                       Py.VList
                         (map (fun endpoint =>
                                 Py.VDict [("operation",
                                            Operation.model_dump
                                              (operation_of_endpoint endpoint))])
                              (MeshPolicy.endpoints policy)))]])].
Proof.
  split; [apply build_authorization_policies_run|].
  split; [apply length_map|].
  intros policy target principal.
  split; [reflexivity|]. split; [reflexivity|]. split; [reflexivity|].
  assert (Htarget : Py.or_str (MeshPolicy.target_service policy)
                      (MeshPolicy.target_app_name policy) = target).
  { subst target. destruct (MeshPolicy.target_service policy) as [[|c s]|]; reflexivity. }
  unfold resource_of_policy, spec_of_policy, AuthorizationPolicySpec.model_dump,
    Rule.model_dump.
  cbn. rewrite Htarget, map_map. reflexivity.
Qed.

(** C6, as stated, fails: a target service that is present but empty is not
    used; the policy targets the application name. *)
Lemma C6_counterexample :
  MeshPolicy.target_service blank_service_policy = Some ""
  /\ Py.dict_get "targetRefs" (spec (resource_of_policy beacon blank_service_policy))
     = Some (Py.VList [Py.VDict [("group", Py.VStr ""); ("kind", Py.VStr "Service");
                                 ("name", Py.VStr "app-b")]]).
Proof. split; reflexivity. Qed.

(** The spec's example: the policy from [app-a] in [ns1] to [app-b], built by
    [beacon] in model [mymodel]. *)
Example example_policy_resource :
  ObjectMeta.name (metadata (resource_of_policy beacon example_policy))
  = Some ("beacon-mymodel-policy-app-a-ns1-app-b-"
          ++ Py.slice_to 8 (_hash_pydantic_model example_policy))
  /\ Py.dict_get "targetRefs" (spec (resource_of_policy beacon example_policy))
     = Some (Py.VList [Py.VDict [("group", Py.VStr ""); ("kind", Py.VStr "Service");
                                 ("name", Py.VStr "app-b")]])
  /\ _get_peer_identity_for_juju_application "app-a" (model_name beacon)
     = "cluster.local/ns/mymodel/sa/app-a".
Proof. repeat split; reflexivity. Qed.

Example build_nothing :
  fst (_build_authorization_policies beacon [] (world_with ∅)) = Ok [].
Proof. reflexivity. Qed.

(** ** Traces of the sync *)

Section Emits.
Context {A B : Type} (P : Event -> Prop).

Lemma emits_silent (m : M A) :
  (forall w, trace (snd (m w)) = trace w) -> emits P m.
Proof.
  intros Hm w. exists []. rewrite app_nil_r. split; [apply Hm | constructor].
Qed.

Lemma emits_ret (a : A) : emits P (ret a).
Proof. apply emits_silent. reflexivity. Qed.

Lemma emits_raise (e : exn) : emits P (raise (A := A) e).
Proof. apply emits_silent. reflexivity. Qed.

Lemma emits_read (f : World -> A) : emits P (read f).
Proof. apply emits_silent. reflexivity. Qed.

Lemma emits_bind (m : M A) (k : A -> M B) :
  emits P m -> (forall a, emits P (k a)) -> emits P (bind m k).
Proof.
  intros Hm Hk w. unfold bind.
  destruct (Hm w) as [t1 [Ht1 HP1]].
  destruct (m w) as [[a|e] w1]; simpl in Ht1.
  - destruct (Hk a w1) as [t2 [Ht2 HP2]].
    exists (t1 ++ t2)%list. rewrite Ht2, Ht1, app_assoc.
    split; [reflexivity | apply Forall_app; auto].
  - exists t1. simpl. auto.
Qed.

Lemma emits_try (catches : exn -> bool) (m handler : M A) :
  emits P m -> emits P handler -> emits P (try_except catches m handler).
Proof.
  intros Hm Hh w. unfold try_except.
  destruct (Hm w) as [t1 [Ht1 HP1]].
  destruct (m w) as [[a|e] w1]; simpl in Ht1.
  - exists t1. simpl. auto.
  - destruct (catches e).
    + destruct (Hh w1) as [t2 [Ht2 HP2]].
      exists (t1 ++ t2)%list. rewrite Ht2, Ht1, app_assoc.
      split; [reflexivity | apply Forall_app; auto].
    + exists t1. simpl. auto.
Qed.

End Emits.

Lemma emits_emit (P : Event -> Prop) (e : Event) : P e -> emits P (emit e).
Proof.
  intros He w. exists [e]. split; [reflexivity | repeat constructor; exact He].
Qed.


Ltac emits_step :=
  first
    [ apply emits_ret
    | apply emits_raise
    | apply emits_read
    | apply emits_emit; split; reflexivity
    | apply emits_try
    | apply emits_bind; [| intros ?] ].

Ltac emits_auto := unfold log, set_status, sleep; repeat emits_step.

Lemma emits_get_namespace (P : Event -> Prop) (name : string) :
  P (GetNamespace name) -> emits P (client_get_namespace name).
Proof.
  intros HP. unfold client_get_namespace.
  apply emits_bind; [apply emits_emit; exact HP | intros _].
  apply emits_bind; [apply emits_read | intros [ns|]].
  - apply emits_ret.
  - apply emits_raise.
Qed.

Lemma emits_patch_namespace (P : Event -> Prop) (name : string) (obj : Namespace.t) :
  P (PatchNamespace name obj) -> emits P (client_patch_namespace name obj).
Proof.
  intros HP. unfold client_patch_namespace.
  apply emits_bind; [apply emits_emit; exact HP | intros _].
  apply emits_bind; [apply emits_read | intros [|]].
  - apply emits_raise.
  - apply emits_silent. intros w. destruct (namespace_object w); reflexivity.
Qed.

Lemma emits_get_deployment (P : Event -> Prop) (name namespace : string) :
  P (GetDeployment name namespace) -> emits P (client_get_deployment name namespace).
Proof.
  intros HP. unfold client_get_deployment.
  apply emits_bind; [apply emits_emit; exact HP | intros _].
  apply emits_silent. intros w. destruct (deployment_answers w) as [|[d|] rest]; reflexivity.
Qed.

Lemma emits_reconcile (P : Event -> Prop) (scope : Scope) (resources : list (option Resource)) :
  P (Reconcile scope resources) -> emits P (krm_reconcile scope resources).
Proof.
  intros HP. unfold krm_reconcile.
  apply emits_bind; [apply emits_emit; exact HP | intros _].
  apply emits_bind; [apply emits_read | intros fails].
  destruct (fails scope); [apply emits_raise|].
  destruct (all_present resources); [|apply emits_raise].
  apply emits_silent. reflexivity.
Qed.

Lemma emits_patch (self : Charm) (namespace : Namespace.t) :
  emits waypoint_phase (_patch_namespace self namespace).
Proof.
  unfold _patch_namespace. apply emits_try.
  - apply emits_patch_namespace. split; reflexivity.
  - emits_auto.
Qed.

Lemma emits_fetch (self : Charm) : emits waypoint_phase (_get_namespace self).
Proof.
  unfold _get_namespace. apply emits_try.
  - apply emits_bind; [apply emits_get_namespace; split; reflexivity | intros ns].
    apply emits_ret.
  - emits_auto.
Qed.

Lemma emits_add_labels (self : Charm) : emits waypoint_phase (_add_labels self).
Proof.
  unfold _add_labels.
  apply emits_bind; [apply emits_fetch | intros [ns|]]; [|apply emits_raise].
  match goal with |- emits _ (if ?c then _ else _) => destruct c end.
  - emits_auto.
  - apply emits_patch.
Qed.

Lemma emits_remove_labels (self : Charm) : emits waypoint_phase (_remove_labels self).
Proof.
  unfold _remove_labels.
  apply emits_bind; [apply emits_fetch | intros [ns|]]; [|apply emits_raise].
  destruct (Namespace.metadata ns) as [md|]; [|apply emits_ret].
  destruct (truthy_labels (ObjectMeta.labels md)); [|apply emits_ret].
  match goal with |- emits _ (if ?c then _ else _) => destruct c end.
  - emits_auto.
  - apply emits_patch.
Qed.

Lemma emits_sync_waypoint (self : Charm) :
  emits waypoint_phase (_sync_waypoint_resources self).
Proof.
  unfold _sync_waypoint_resources.
  apply emits_bind; [apply emits_reconcile; split; reflexivity | intros _].
  destruct (model_on_mesh (config self)).
  - apply emits_add_labels.
  - apply emits_remove_labels.
Qed.

Lemma emits_poll (self : Charm) (check_interval : Z) (iterations : list nat) :
  emits readiness_phase (poll_deployment self check_interval iterations).
Proof.
  induction iterations as [|i rest IH]; simpl.
  - apply emits_ret.
  - apply emits_bind.
    + apply emits_try.
      * apply emits_bind; [apply emits_get_deployment; split; reflexivity | intros d].
        destruct (deployment_ready d); emits_auto.
      * emits_auto.
    + intros [|]; [apply emits_ret|].
      apply emits_bind; [emits_auto | intros _; exact IH].
Qed.

Lemma emits_is_waypoint_ready (self : Charm) :
  emits readiness_phase (_is_waypoint_ready self).
Proof.
  unfold _is_waypoint_ready, _is_waypoint_deployment_ready.
  apply emits_bind; [apply emits_poll | intros [|]]; apply emits_ret.
Qed.

Lemma emits_setup_proxy (self : Charm) :
  emits gated_phase (_setup_proxy_pebble_service self).
Proof.
  unfold _setup_proxy_pebble_service.
  apply emits_bind; [apply emits_read | intros [|]]; simpl; [|apply emits_ret].
  apply emits_bind; [emits_auto | intros _].
  apply emits_try; [|emits_auto].
  apply emits_bind; [emits_auto | intros _].
  apply emits_bind; [apply emits_read | intros [|]]; emits_auto.
Qed.

Lemma is_log_gated (e : Event) : is_log e -> gated_phase e.
Proof. intros [l [msg ->]]. split; reflexivity. Qed.

Lemma emits_build `{Hashing} (self : Charm) (infos : list MeshPolicy.t) :
  emits gated_phase (_build_authorization_policies self infos).
Proof.
  intros w. destruct (build_authorization_policies_run self infos w) as [logs [Hrun Hlogs]].
  exists logs. rewrite Hrun. split; [reflexivity|].
  eapply Forall_impl; [exact Hlogs | exact is_log_gated].
Qed.

Lemma emits_sync_policies `{Hashing} (self : Charm) :
  emits gated_phase (_sync_authorization_policies self).
Proof.
  unfold _sync_authorization_policies.
  apply emits_bind.
  - destruct (manage_authorization_policies (config self)).
    + apply emits_bind; [apply emits_read | intros info].
      apply emits_bind; [apply emits_build | intros aps].
      emits_auto.
    + emits_auto.
  - intros aps. apply emits_reconcile. split; reflexivity.
Qed.

(** C3, as stated, fails: with a deployment that never answers, the run ends
    in the readiness error, yet the namespace was read and patched before the
    first poll and now carries this charm's labels. *)
Lemma C3_counterexample :
  namespace_labels (world_with ∅) = ∅
  /\ fst (_sync_all_resources beacon (world_with ∅)) = Raise readiness_error
  /\ labels_get (namespace_labels (snd (_sync_all_resources beacon (world_with ∅))))
       MANAGED_BY = Some "beacon-mymodel"
  /\ trace (snd (_sync_all_resources beacon (world_with ∅)))
     = [ SetStatus (MaintenanceStatus "Validating waypoint readiness");
         Reconcile WAYPOINT_LABEL [Some (_construct_waypoint beacon)];
         GetNamespace "mymodel";
         PatchNamespace "mymodel"
           (namespace_with
              (labels_of [(USE_WAYPOINT, "beacon-mymodel-waypoint");
                          (DATAPLANE_MODE, "ambient");
                          (MANAGED_BY, "beacon-mymodel")]));
         GetDeployment "beacon-mymodel-waypoint" "mymodel";
         Log INFO "Deployment not found, retrying...";
         Sleep 10;
         GetDeployment "beacon-mymodel-waypoint" "mymodel";
         Log INFO "Deployment not found, retrying...";
         Sleep 10;
         GetDeployment "beacon-mymodel-waypoint" "mymodel";
         Log INFO "Deployment not found, retrying...";
         Sleep 10 ].
Proof. repeat split; vm_compute; reflexivity. Qed.

(** ** The policy reconcile *)

Lemma all_present_Some {A} (l : list A) : all_present (map Some l) = Some l.
Proof. induction l as [|x l IH]; simpl; [reflexivity | rewrite IH; reflexivity]. Qed.

(** Reconciling to no object deletes every owned object. *)
Lemma reconcile_objects_nil (current : list Resource) : reconcile_objects current [] = [].
Proof.
  unfold reconcile_objects. simpl.
  induction current as [|x current IH]; simpl; [reflexivity | exact IH].
Qed.

(** C5: [_sync_authorization_policies] always calls the reconcile of the
    policy scope, exactly once and as its last action: with the empty list
    when the toggle is off, with the list built from the current mesh
    policies when it is on.  When the call does not fail, the waypoint scope
    is untouched and the policy scope holds the reconciled objects, which
    with the toggle off is nothing at all. *)
Theorem C5_policy_reconcile `{Hashing} (self : Charm) (w : World) :
  let toggle := manage_authorization_policies (config self) in
  let built := map (resource_of_policy self) (mesh_info w) in
  let run := _sync_authorization_policies self w in
  exists logs,
    Forall is_log logs
    /\ trace (snd run)
       = (trace w ++ logs
          ++ [Reconcile AUTHORIZATION_POLICY_LABEL (if toggle then map Some built else [])])%list
    /\ (reconcile_fails w AUTHORIZATION_POLICY_LABEL = false ->
        fst run = Ok tt
        /\ owned (snd run) WAYPOINT_LABEL = owned w WAYPOINT_LABEL
        /\ owned (snd run) AUTHORIZATION_POLICY_LABEL
           = reconcile_objects (owned w AUTHORIZATION_POLICY_LABEL)
               (if toggle then built else [])
        /\ (toggle = false -> owned (snd run) AUTHORIZATION_POLICY_LABEL = [])).
Proof.
  intros toggle built run. subst run toggle.
  unfold _sync_authorization_policies, _get_authorization_policy_resource_manager.
  destruct (manage_authorization_policies (config self)).
  - destruct (build_authorization_policies_run self (mesh_info w) w) as [logs [Hrun Hlogs]].
    exists (logs ++ [Log DEBUG "Reconciling state of AuthorizationPolicies to:";
                     Log DEBUG "<authorization_policies>"])%list.
    split.
    { apply Forall_app. split; [exact Hlogs|].
      repeat constructor; eexists _, _; reflexivity. }
    unfold krm_reconcile. unfold_monad. rewrite Hrun. cbn.
    rewrite <- (map_map (resource_of_policy self) Some (mesh_info w)).
    fold built. rewrite all_present_Some.
    destruct (reconcile_fails w AUTHORIZATION_POLICY_LABEL) eqn:Hfails; cbn.
    + split; [rewrite <- !app_assoc; reflexivity | discriminate].
    + split; [rewrite <- !app_assoc; reflexivity|].
      intros _. repeat split. discriminate.
  - exists [Log DEBUG "AuthorizationPolicies creation is disabled - reconciling to no Authorization Policies."].
    split; [repeat constructor; eexists _, _; reflexivity|].
    unfold krm_reconcile. unfold_monad. cbn.
    destruct (reconcile_fails w AUTHORIZATION_POLICY_LABEL) eqn:Hfails; cbn.
    + split; [rewrite <- !app_assoc; reflexivity | discriminate].
    + split; [rewrite <- !app_assoc; reflexivity|].
      intros _. repeat split. intros _. apply reconcile_objects_nil.
Qed.

(** ** More on names and identities *)

Lemma string_app_inv_head (p a b : string) : p ++ a = p ++ b -> a = b.
Proof.
  induction p as [|c p IH]; simpl; intros Heq; [exact Heq|].
  injection Heq as Heq. apply IH. exact Heq.
Qed.

Lemma string_app_assoc (a b c : string) : (a ++ b) ++ c = a ++ (b ++ c).
Proof.
  induction a as [|x a IH]; [reflexivity|].
  change (String x ((a ++ b) ++ c) = String x (a ++ (b ++ c))). rewrite IH. reflexivity.
Qed.

Lemma no_slash_split (n1 n2 a1 a2 : string) :
  no_slash n1 = true -> no_slash n2 = true ->
  n1 ++ "/sa/" ++ a1 = n2 ++ "/sa/" ++ a2 ->
  n1 = n2 /\ a1 = a2.
Proof.
  revert n2. induction n1 as [|c n1 IH]; intros [|c2 n2] H1 H2 Heq.
  - split; [reflexivity|]. exact (string_app_inv_head "/sa/" a1 a2 Heq).
  - exfalso. simpl in H2. change (("" ++ "/sa/" ++ a1)) with (String "/"%char ("sa/" ++ a1)) in Heq.
    change (String c2 n2 ++ "/sa/" ++ a2) with (String c2 (n2 ++ "/sa/" ++ a2)) in Heq.
    injection Heq as Hc _. subst c2. discriminate.
  - exfalso. simpl in H1. change (("" ++ "/sa/" ++ a2)) with (String "/"%char ("sa/" ++ a2)) in Heq.
    change (String c n1 ++ "/sa/" ++ a1) with (String c (n1 ++ "/sa/" ++ a1)) in Heq.
    injection Heq as Hc _. subst c. discriminate.
  - change (String c n1 ++ "/sa/" ++ a1) with (String c (n1 ++ "/sa/" ++ a1)) in Heq.
    change (String c2 n2 ++ "/sa/" ++ a2) with (String c2 (n2 ++ "/sa/" ++ a2)) in Heq.
    injection Heq as Hc Hrest. subst c2.
    simpl in H1, H2. apply andb_true_iff in H1 as [_ H1]. apply andb_true_iff in H2 as [_ H2].
    destruct (IH n2 H1 H2 Hrest) as [-> ->]. split; reflexivity.
Qed.

(** X1: two peer identities are equal only for the same application in the
    same namespace, as long as the namespaces hold no slash. *)
Theorem peer_identity_injective (app1 ns1 app2 ns2 : string) :
  no_slash ns1 = true -> no_slash ns2 = true ->
  _get_peer_identity_for_juju_application app1 ns1
  = _get_peer_identity_for_juju_application app2 ns2 ->
  app1 = app2 /\ ns1 = ns2.
Proof.
  intros H1 H2 Heq.
  unfold _get_peer_identity_for_juju_application,
    _get_peer_identity_for_service_account in Heq.
  apply string_app_inv_head in Heq.
  destruct (no_slash_split ns1 ns2 app1 app2 H1 H2 Heq) as [-> ->].
  split; reflexivity.
Qed.

(** The hypotheses hold for the model namespace of the examples. *)
Lemma peer_identity_injective_witness :
  no_slash "mymodel" = true
  /\ ("app-a" = "app-a" /\ "mymodel" = "mymodel").
Proof.
  split; [reflexivity|].
  exact (peer_identity_injective "app-a" "mymodel" "app-a" "mymodel"
           eq_refl eq_refl eq_refl).
Defined.

(** X2: when source application, source namespace and target application
    have at most 30 characters each, the policy name is the full format,
    untouched, whatever the lengths of the charm's own names. *)
Theorem short_parts_never_cut `{Hashing} (self : Charm) (policy : MeshPolicy.t) :
  (String.length (MeshPolicy.source_app_name policy) <= 30)%nat ->
  (String.length (MeshPolicy.source_namespace policy) <= 30)%nat ->
  (String.length (MeshPolicy.target_app_name policy) <= 30)%nat ->
  _generate_authorization_policy_name self policy
  = name_format self (MeshPolicy.source_app_name policy)
      (MeshPolicy.source_namespace policy) (MeshPolicy.target_app_name policy)
      (Py.slice_to 8 (_hash_pydantic_model policy)).
Proof.
  intros Hs Hn Ht. unfold _generate_authorization_policy_name.
  rewrite !join_name.
  rewrite (slice_to_short 30 _ Hs), (slice_to_short 30 _ Hn), (slice_to_short 30 _ Ht).
  destruct (253 <? _)%nat; reflexivity.
Qed.

Lemma short_parts_never_cut_witness :
  (String.length (MeshPolicy.source_app_name example_policy) <= 30)%nat
  /\ _generate_authorization_policy_name beacon example_policy
     = "beacon-mymodel-policy-app-a-ns1-app-b-"
       ++ Py.slice_to 8 (_hash_pydantic_model example_policy).
Proof.
  assert (Hs : (String.length (MeshPolicy.source_app_name example_policy) <= 30)%nat)
    by (vm_compute; lia).
  split; [exact Hs|].
  refine (short_parts_never_cut (H := test_hashing) beacon example_policy Hs _ _);
    vm_compute; lia.
Defined.

(** X3: without any assumption on the charm's own names, the policy name has
    at most 253 characters or, when it was cut, at most the length of the two
    names plus 110; so it exceeds the limit only when application and model
    name together have more than 143 characters. *)
Theorem policy_name_length `{Hashing} (self : Charm) (policy : MeshPolicy.t) :
  (String.length (_generate_authorization_policy_name self policy)
   <= Nat.max 253 (String.length (app_name self) + String.length (model_name self) + 110))%nat
  /\ ((253 < String.length (_generate_authorization_policy_name self policy))%nat ->
      (143 < String.length (app_name self) + String.length (model_name self))%nat).
Proof.
  pose proof (hash8_length policy) as Hhash.
  unfold _generate_authorization_policy_name. rewrite !join_name.
  destruct (253 <? _)%nat eqn:Hcmp.
  - rewrite name_format_length, Hhash, !slice_to_length. split; lia.
  - apply Nat.ltb_ge in Hcmp. split; lia.
Qed.

(** X4: whatever the lengths, the policy name starts with the charm's
    [{app}-{model}-policy-] and ends with the dash and the 8 hash characters
    of the untruncated policy. *)
Theorem policy_name_frame `{Hashing} (self : Charm) (policy : MeshPolicy.t) :
  exists middle,
    _generate_authorization_policy_name self policy
    = app_name self ++ "-" ++ model_name self ++ "-policy-" ++ middle ++ "-"
      ++ Py.slice_to 8 (_hash_pydantic_model policy)
    /\ String.length (Py.slice_to 8 (_hash_pydantic_model policy)) = 8%nat.
Proof.
  unfold _generate_authorization_policy_name. rewrite !join_name.
  destruct (253 <? _)%nat.
  - exists (Py.slice_to 30 (MeshPolicy.source_app_name policy) ++ "-"
            ++ Py.slice_to 30 (MeshPolicy.source_namespace policy) ++ "-"
            ++ Py.slice_to 30 (MeshPolicy.target_app_name policy)).
    split; [|apply hash8_length].
    unfold name_format. rewrite !string_app_assoc. reflexivity.
  - exists (MeshPolicy.source_app_name policy ++ "-"
            ++ MeshPolicy.source_namespace policy ++ "-"
            ++ MeshPolicy.target_app_name policy).
    split; [|apply hash8_length].
    unfold name_format. rewrite !string_app_assoc. reflexivity.
Qed.

(** ** More on the namespace labels *)

Lemma label_sync_unreadable (self : Charm) (w : World) :
  namespace_object w = Failed ->
  let failed :=
    (Raise (A := unit) (RuntimeError "Error fetching namespace: None"),
     with_trace w (trace w ++ [GetNamespace (model_name self);
                               Log ERROR "Error fetching namespace"])) in
  _add_labels self w = failed /\ _remove_labels self w = failed.
Proof.
  intros Hns failed. subst failed.
  unfold _add_labels, _remove_labels, _get_namespace, client_get_namespace.
  unfold_monad. simpl. rewrite Hns. simpl. rewrite <- app_assoc. split; reflexivity.
Qed.

Lemma add_labels_returns (self : Charm) (w : World) (ns : Namespace.t) :
  namespace_object w = Found ns -> fst (_add_labels self w) = Ok tt.
Proof.
  intros Hns. rewrite (add_labels_run self w ns Hns).
  repeat match goal with |- context [if ?c then _ else _] => destruct c end; reflexivity.
Qed.

Lemma remove_labels_returns (self : Charm) (w : World) (ns : Namespace.t) :
  namespace_object w = Found ns -> fst (_remove_labels self w) = Ok tt.
Proof.
  intros Hns. rewrite (remove_labels_run self w ns Hns).
  repeat match goal with |- context [if ?c then _ else _] => destruct c end; reflexivity.
Qed.


(** The world after an accepted claim. *)
Lemma add_labels_accepted (self : Charm) (w : World) (ns : Namespace.t) :
  namespace_object w = Found ns ->
  patch_fails w = false ->
  ~ (istio_configured (labels_of_namespace ns)
     /\ labels_get (labels_of_namespace ns) MANAGED_BY <> Some (_app_identity self)) ->
  exists ns1,
    namespace_object (snd (_add_labels self w)) = Found ns1
    /\ patch_fails (snd (_add_labels self w)) = false
    /\ forall k, labels_get (labels_of_namespace ns1) k
                 = claimed_value self (labels_of_namespace ns) k.
Proof.
  intros Hns Hpatch Hfree.
  rewrite (add_labels_run self w ns Hns).
  pose proof (add_labels_guard_spec self (labels_of_namespace ns)) as Hguard.
  destruct ((Py.truthy_opt_str (labels_get (labels_of_namespace ns) USE_WAYPOINT)
             || Py.truthy_opt_str (labels_get (labels_of_namespace ns) DATAPLANE_MODE))
            && negb (bool_decide (labels_get (labels_of_namespace ns) MANAGED_BY
                                  = Some (_app_identity self)))).
  { exfalso. apply Hfree. apply Hguard. reflexivity. }
  rewrite Hpatch. eexists. split; [reflexivity|]. split; [exact Hpatch|].
  intros k. rewrite labels_of_patched, labels_of_sent.
  rewrite labels_get_after_patch by apply insert3_None.
  apply claimed_labels_get.
Qed.

Lemma claimed_value_owner (self : Charm) (L : labels_dict) :
  claimed_value self L MANAGED_BY = Some (_app_identity self).
Proof. unfold claimed_value. rewrite decide_True by reflexivity. reflexivity. Qed.

Lemma claimed_value_again (self : Charm) (L1 L : labels_dict) :
  (forall k, labels_get L1 k = claimed_value self L k) ->
  forall k, claimed_value self L1 k = claimed_value self L k.
Proof.
  intros HL1 k. unfold claimed_value.
  repeat destruct (decide _); try reflexivity.
  rewrite HL1. unfold claimed_value.
  rewrite !decide_False by assumption. reflexivity.
Qed.

Lemma released_after_claimed (self : Charm) (L1 L : labels_dict) :
  (forall k, labels_get L1 k = claimed_value self L k) ->
  forall k, released_value L1 k = released_value L k.
Proof.
  intros HL1 k. unfold released_value.
  repeat destruct (decide _); try reflexivity.
  rewrite HL1. unfold claimed_value.
  rewrite !decide_False by assumption. reflexivity.
Qed.

Lemma owned_labels_free (self : Charm) (L : labels_dict) :
  labels_get L MANAGED_BY = Some (_app_identity self) ->
  ~ (istio_configured L /\ labels_get L MANAGED_BY <> Some (_app_identity self)).
Proof. intros Hown [_ Hne]. exact (Hne Hown). Qed.

(** X6: claiming is idempotent.  After a claim that was not blocked and whose
    patch was accepted, the namespace names this charm as its manager, a
    second claim is not blocked either, it sends its patch again, and every
    label reads after it as it read after the first. *)
Theorem claim_twice (self : Charm) (w : World) (ns : Namespace.t) :
  namespace_object w = Found ns ->
  patch_fails w = false ->
  ~ (istio_configured (labels_of_namespace ns)
     /\ labels_get (labels_of_namespace ns) MANAGED_BY <> Some (_app_identity self)) ->
  let w1 := snd (_add_labels self w) in
  let w2 := snd (_add_labels self w1) in
  labels_get (namespace_labels w1) MANAGED_BY = Some (_app_identity self)
  /\ length (patches_of (trace w2)) = S (length (patches_of (trace w1)))
  /\ forall k, labels_get (namespace_labels w2) k = labels_get (namespace_labels w1) k.
Proof.
  intros Hns Hpatch Hfree w1 w2.
  destruct (add_labels_accepted self w ns Hns Hpatch Hfree) as [ns1 [Hns1 [Hpatch1 HL1]]].
  fold w1 in Hns1, Hpatch1.
  assert (Hown : labels_get (labels_of_namespace ns1) MANAGED_BY = Some (_app_identity self)).
  { rewrite HL1. apply claimed_value_owner. }
  destruct (add_labels_accepted self w1 ns1 Hns1 Hpatch1 (owned_labels_free self _ Hown))
    as [ns2 [Hns2 [_ HL2]]].
  fold w2 in Hns2.
  unfold namespace_labels. rewrite Hns1, Hns2.
  split; [exact Hown|]. split.
  - subst w2. rewrite (add_labels_run self w1 ns1 Hns1).
    pose proof (add_labels_guard_spec self (labels_of_namespace ns1)) as Hguard.
    destruct ((Py.truthy_opt_str (labels_get (labels_of_namespace ns1) USE_WAYPOINT)
               || Py.truthy_opt_str (labels_get (labels_of_namespace ns1) DATAPLANE_MODE))
              && negb (bool_decide (labels_get (labels_of_namespace ns1) MANAGED_BY
                                    = Some (_app_identity self)))).
    { exfalso. destruct (proj1 Hguard eq_refl) as [_ Hne]. exact (Hne Hown). }
    rewrite Hpatch1. simpl. rewrite patches_of_app, length_app. simpl. lia.
  - intros k. rewrite HL2, HL1. apply claimed_value_again. exact HL1.
Qed.

(** X7: a claim followed by a release undoes the claim.  When both patches
    are accepted, the three managed keys are gone and every other label
    reads as it did before the claim; so a namespace that had none of the
    three keys reads exactly as before. *)
Theorem claim_then_release (self : Charm) (w : World) (ns : Namespace.t) :
  namespace_object w = Found ns ->
  patch_fails w = false ->
  ~ (istio_configured (labels_of_namespace ns)
     /\ labels_get (labels_of_namespace ns) MANAGED_BY <> Some (_app_identity self)) ->
  let L := labels_of_namespace ns in
  let w2 := snd (_remove_labels self (snd (_add_labels self w))) in
  (forall k, labels_get (namespace_labels w2) k = released_value L k)
  /\ (labels_get L USE_WAYPOINT = None ->
      labels_get L DATAPLANE_MODE = None ->
      labels_get L MANAGED_BY = None ->
      forall k, labels_get (namespace_labels w2) k = labels_get L k).
Proof.
  intros Hns Hpatch Hfree L w2.
  destruct (add_labels_accepted self w ns Hns Hpatch Hfree) as [ns1 [Hns1 [Hpatch1 HL1]]].
  assert (Hown : labels_get (labels_of_namespace ns1) MANAGED_BY = Some (_app_identity self)).
  { rewrite HL1. apply claimed_value_owner. }
  assert (Hall : forall k, labels_get (namespace_labels w2) k = released_value L k).
  { intros k. subst w2.
    rewrite (remove_labels_run self _ ns1 Hns1).
    rewrite bool_decide_eq_false_2.
    2: { intros Hempty. unfold labels_get in Hown. rewrite Hempty, lookup_empty in Hown.
         discriminate. }
    rewrite (bool_decide_eq_true_2 _ Hown). simpl. rewrite Hpatch1.
    unfold namespace_labels. simpl.
    rewrite labels_of_patched, labels_of_sent.
    rewrite labels_get_after_patch by apply insert3_None.
    rewrite released_labels_get.
    apply (released_after_claimed self). exact HL1. }
  split; [exact Hall|].
  intros Hu Hd Hm k. rewrite Hall. unfold released_value.
  repeat destruct (decide _); subst; auto.
Qed.

Lemma team_labels_free :
  ~ (istio_configured (labels_of_namespace (namespace_with team_labels))
     /\ labels_get (labels_of_namespace (namespace_with team_labels)) MANAGED_BY
        <> Some (_app_identity beacon)).
Proof.
  intros [[[v [Hv _]] | [v [Hv _]]] _]; vm_compute in Hv; discriminate.
Qed.

(** A namespace with a single unrelated label, claimed twice. *)
Lemma claim_twice_witness :
  namespace_object (world_with team_labels) = Found (namespace_with team_labels)
  /\ patch_fails (world_with team_labels) = false
  /\ labels_get (namespace_labels (snd (_add_labels beacon (world_with team_labels))))
       MANAGED_BY = Some "beacon-mymodel"
  /\ (forall k,
        labels_get (namespace_labels
                      (snd (_add_labels beacon
                              (snd (_add_labels beacon (world_with team_labels)))))) k
        = labels_get (namespace_labels (snd (_add_labels beacon (world_with team_labels)))) k).
Proof.
  split; [reflexivity|]. split; [reflexivity|].
  destruct (claim_twice beacon (world_with team_labels) (namespace_with team_labels)
              eq_refl eq_refl team_labels_free) as [Hown [_ Hsame]].
  split; [exact Hown | exact Hsame].
Defined.

(** The same namespace, claimed and released: the unrelated label is all
    that is left. *)
Lemma claim_then_release_witness :
  namespace_object (world_with team_labels) = Found (namespace_with team_labels)
  /\ patch_fails (world_with team_labels) = false
  /\ (forall k,
        labels_get (namespace_labels
                      (snd (_remove_labels beacon
                              (snd (_add_labels beacon (world_with team_labels)))))) k
        = labels_get team_labels k).
Proof.
  split; [reflexivity|]. split; [reflexivity|].
  destruct (claim_then_release beacon (world_with team_labels) (namespace_with team_labels)
              eq_refl eq_refl team_labels_free) as [_ Hback].
  apply Hback; vm_compute; reflexivity.
Defined.

(** ** More on the readiness wait *)

Lemma slept_app (t1 t2 : list Event) : slept (t1 ++ t2)%list = slept t1 + slept t2.
Proof.
  induction t1 as [|e t1 IH]; simpl; [reflexivity|].
  destruct e; simpl; rewrite IH; lia.
Qed.

Lemma sleep_step (check_interval : Z) (n m : nat) :
  Z.of_nat m = 1 + Z.of_nat n ->
  check_interval + check_interval * Z.of_nat n = check_interval * Z.of_nat m.
Proof. intros ->. ring. Qed.

(** The loop, with its bookkeeping: every poll takes one answer from the
    cluster; every poll that is not ready is followed by one sleep; the loop
    stops at the first ready answer or after the last iteration. *)
Lemma poll_deployment_account (self : Charm) (check_interval : Z) (iterations : list nat) :
  forall w : World,
  exists t w' b,
    poll_deployment self check_interval iterations w = (Ok b, w')
    /\ trace w' = (trace w ++ t)%list
    /\ deployment_answers w' = drop (polls_of t) (deployment_answers w)
    /\ slept t = check_interval * Z.of_nat (polls_of t - (if b then 1 else 0))
    /\ (b = false -> polls_of t = length iterations)
    /\ (b = true ->
        exists k d,
          polls_of t = S k
          /\ (k < length iterations)%nat
          /\ deployment_answers w !! k = Some (Found d)
          /\ deployment_ready d = true
          /\ forall j a, (j < k)%nat -> deployment_answers w !! j = Some a ->
                         ready_answer a = false).
Proof.
  induction iterations as [|i rest IH]; intros w.
  - exists [], w, false. simpl. rewrite app_nil_r.
    repeat split; try reflexivity; try lia; try discriminate.
  - simpl. unfold client_get_deployment. unfold_monad.
    destruct (deployment_answers w) as [|[d|] answers] eqn:Hans; simpl.
    + rewrite Hans. cbn.
      match goal with |- context [poll_deployment _ _ _ ?w1] =>
        destruct (IH w1) as [t [w' [b [Hrun [Htrace [Hleft [Hslept [Hfalse Htrue]]]]]]]] end.
      cbn in Hrun, Htrace, Hleft, Htrue. rewrite Hans in Hleft, Htrue.
      destruct b.
      { destruct (Htrue eq_refl) as [k [d [_ [_ [Hk _]]]]]. rewrite lookup_nil in Hk.
        discriminate. }
      eexists (_ :: _ :: _ :: t), w', false. split; [exact Hrun|]. split.
      { rewrite Htrace, <- !app_assoc. reflexivity. }
      cbn. split; [rewrite Hleft, !drop_nil; reflexivity|].
      split; [rewrite Hslept; apply sleep_step; lia|].
      split; [intros _; rewrite (Hfalse eq_refl); reflexivity | discriminate].
    + rewrite Hans. destruct (deployment_ready d) eqn:Hready; cbn.
      * eexists [_], _, true. split; [reflexivity|]. cbn.
        split; [reflexivity|]. split; [try rewrite Hans; reflexivity|].
        split; [lia|]. split; [discriminate|]. intros _.
        exists 0%nat, d. repeat split; try lia; try assumption.
      * match goal with |- context [poll_deployment _ _ _ ?w1] =>
          destruct (IH w1) as [t [w' [b [Hrun [Htrace [Hleft [Hslept [Hfalse Htrue]]]]]]]] end.
        cbn in Hrun, Htrace, Hleft, Htrue.
        eexists (_ :: _ :: _ :: t), w', b. split; [exact Hrun|]. split.
        { rewrite Htrace, <- !app_assoc. reflexivity. }
        cbn. split; [rewrite Hleft; try rewrite Hans; reflexivity|]. split.
        { rewrite Hslept. destruct b; [|apply sleep_step; lia].
          destruct (Htrue eq_refl) as [k [d' [Hk _]]]. rewrite Hk.
          apply sleep_step. lia. }
        split; [intros Hb; rewrite (Hfalse Hb); reflexivity|].
        intros Hb. destruct (Htrue Hb) as [k [d' [Hk [Hlt [Hat [Hrd Hbefore]]]]]].
        exists (S k), d'. split; [rewrite Hk; reflexivity|]. split; [lia|].
        split; [exact Hat|]. split; [exact Hrd|].
        intros [|j] a Hj Ha.
        -- simpl in Ha. injection Ha as <-. simpl. exact Hready.
        -- simpl in Ha. apply (Hbefore j a); [lia | exact Ha].
    + rewrite Hans. cbn.
      match goal with |- context [poll_deployment _ _ _ ?w1] =>
        destruct (IH w1) as [t [w' [b [Hrun [Htrace [Hleft [Hslept [Hfalse Htrue]]]]]]]] end.
      cbn in Hrun, Htrace, Hleft, Htrue.
      eexists (_ :: _ :: _ :: t), w', b. split; [exact Hrun|]. split.
      { rewrite Htrace, <- !app_assoc. reflexivity. }
      cbn. split; [rewrite Hleft; try rewrite Hans; reflexivity|]. split.
      { rewrite Hslept. destruct b; [|apply sleep_step; lia].
        destruct (Htrue eq_refl) as [k [d' [Hk _]]]. rewrite Hk.
        apply sleep_step. lia. }
      split; [intros Hb; rewrite (Hfalse Hb); reflexivity|].
      intros Hb. destruct (Htrue Hb) as [k [d' [Hk [Hlt [Hat [Hrd Hbefore]]]]]].
      exists (S k), d'. split; [rewrite Hk; reflexivity|]. split; [lia|].
      split; [exact Hat|]. split; [exact Hrd|].
      intros [|j] a Hj Ha.
      -- simpl in Ha. injection Ha as <-. reflexivity.
      -- simpl in Ha. apply (Hbefore j a); [lia | exact Ha].
Qed.

(** X8: the readiness wait sleeps the 10 seconds after every poll that is
    not ready, the last one included, and not after the ready one.  A wait
    that returns [false] has polled [timeout // 10] times and slept 10 times
    that; with a timeout that is not negative no wait sleeps longer than the
    timeout.  Every poll takes one answer from the cluster. *)
Theorem readiness_wait_sleeps (self : Charm) (w : World) :
  let timeout := ready_timeout (config self) in
  exists t w' b,
    _is_waypoint_deployment_ready self w = (Ok b, w')
    /\ trace w' = (trace w ++ t)%list
    /\ deployment_answers w' = drop (polls_of t) (deployment_answers w)
    /\ slept t = 10 * Z.of_nat (polls_of t - (if b then 1 else 0))
    /\ (b = false ->
        polls_of t = Z.to_nat (timeout / 10)
        /\ slept t = 10 * Z.of_nat (Z.to_nat (timeout / 10)))
    /\ (0 <= timeout -> slept t <= timeout).
Proof.
  intros timeout. unfold _is_waypoint_deployment_ready. fold timeout.
  destruct (poll_deployment_account self 10 (Py.range (timeout / 10)) w)
    as [t [w' [b [Hrun [Htrace [Hleft [Hslept [Hfalse Htrue]]]]]]]].
  rewrite range_length in Hfalse, Htrue.
  exists t, w', b. split; [exact Hrun|]. split; [exact Htrace|].
  split; [exact Hleft|]. split; [exact Hslept|]. split.
  - intros Hb. rewrite Hslept, Hb, (Hfalse Hb). split; [reflexivity|]. f_equal. lia.
  - intros Hnonneg. rewrite Hslept.
    assert (Hq : 0 <= timeout / 10) by (apply Z.div_pos; lia).
    assert (Hm : 10 * (timeout / 10) <= timeout) by (apply Z.mul_div_le; lia).
    assert (Hp : (polls_of t <= Z.to_nat (timeout / 10))%nat).
    { destruct b.
      - destruct (Htrue eq_refl) as [k [d [Hk [Hlt _]]]]. lia.
      - rewrite (Hfalse eq_refl). lia. }
    lia.
Qed.

(** X9: a readiness wait that returns [true] stopped at the first ready
    answer: it polled once per answer up to and including the first one that
    is a deployment with a ready status, within the allowed attempts, and
    every answer before it was not ready. *)
Theorem readiness_wait_stops_at_first_ready (self : Charm) (w : World) :
  fst (_is_waypoint_deployment_ready self w) = Ok true ->
  exists k d,
    polls_of (drop (length (trace w))
                   (trace (snd (_is_waypoint_deployment_ready self w)))) = S k
    /\ (k < Z.to_nat (ready_timeout (config self) / 10))%nat
    /\ deployment_answers w !! k = Some (Found d)
    /\ deployment_ready d = true
    /\ (forall j a, (j < k)%nat -> deployment_answers w !! j = Some a ->
                    ready_answer a = false)
    /\ deployment_answers (snd (_is_waypoint_deployment_ready self w))
       = drop (S k) (deployment_answers w).
Proof.
  unfold _is_waypoint_deployment_ready.
  destruct (poll_deployment_account self 10
              (Py.range (ready_timeout (config self) / 10)) w)
    as [t [w' [b [Hrun [Htrace [Hleft [_ [_ Htrue]]]]]]]].
  rewrite Hrun. simpl. intros Hb. injection Hb as ->.
  destruct (Htrue eq_refl) as [k [d [Hk [Hlt [Hat [Hrd Hbefore]]]]]].
  rewrite range_length in Hlt.
  exists k, d. rewrite Htrace, drop_app_length.
  repeat split; try assumption. rewrite Hleft, Hk. reflexivity.
Qed.

(** Three answers, of which the second is the first ready one. *)
Lemma readiness_wait_stops_at_first_ready_witness :
  fst (_is_waypoint_deployment_ready beacon
         (with_deployment_answers (world_with ∅) [Failed; Found countless_deployment; Failed]))
  = Ok true
  /\ exists k d,
       [Failed; Found countless_deployment; Failed] !! k = Some (Found d)
       /\ deployment_ready d = true
       /\ deployment_answers
            (snd (_is_waypoint_deployment_ready beacon
                    (with_deployment_answers (world_with ∅)
                       [Failed; Found countless_deployment; Failed])))
          = drop (S k) [Failed; Found countless_deployment; Failed].
Proof.
  assert (Hready :
            fst (_is_waypoint_deployment_ready beacon
                   (with_deployment_answers (world_with ∅)
                      [Failed; Found countless_deployment; Failed]))
            = Ok true) by (vm_compute; reflexivity).
  split; [exact Hready|].
  destruct (readiness_wait_stops_at_first_ready beacon _ Hready)
    as [k [d [_ [_ [Hat [Hrd [_ Hleft]]]]]]].
  exists k, d. split; [exact Hat|]. split; [exact Hrd | exact Hleft].
Defined.

(** ** What the steps leave alone *)

Section Keeps.
Context {X : Type} (f : World -> X).
Hypothesis f_trace : forall w t, f (with_trace w t) = f w.
Hypothesis f_namespace : forall w n, f (with_namespace_object w n) = f w.
Hypothesis f_answers : forall w l, f (with_deployment_answers w l) = f w.
Hypothesis f_owned : forall w o, f (with_owned w o) = f w.

Lemma keeps_ret {A} (a : A) : keeps f (ret a).
Proof. intros w. reflexivity. Qed.

Lemma keeps_raise {A} (e : exn) : keeps f (raise (A := A) e).
Proof. intros w. reflexivity. Qed.

Lemma keeps_read {A} (g : World -> A) : keeps f (read g).
Proof. intros w. reflexivity. Qed.

Lemma keeps_emit (e : Event) : keeps f (emit e).
Proof. intros w. apply f_trace. Qed.

Lemma keeps_bind {A B} (m : M A) (k : A -> M B) :
  keeps f m -> (forall a, keeps f (k a)) -> keeps f (bind m k).
Proof.
  intros Hm Hk w. unfold bind. specialize (Hm w).
  destruct (m w) as [[a|e] w1]; simpl in Hm.
  - rewrite (Hk a w1). exact Hm.
  - exact Hm.
Qed.

Lemma keeps_try {A} (catches : exn -> bool) (m handler : M A) :
  keeps f m -> keeps f handler -> keeps f (try_except catches m handler).
Proof.
  intros Hm Hh w. unfold try_except. specialize (Hm w).
  destruct (m w) as [[a|e] w1]; simpl in Hm; [exact Hm|].
  destruct (catches e); [rewrite (Hh w1)|]; exact Hm.
Qed.

Lemma keeps_get_namespace (name : string) : keeps f (client_get_namespace name).
Proof.
  unfold client_get_namespace.
  apply keeps_bind; [apply keeps_emit | intros _].
  apply keeps_bind; [apply keeps_read | intros [ns|]];
    [apply keeps_ret | apply keeps_raise].
Qed.

Lemma keeps_patch_namespace (name : string) (obj : Namespace.t) :
  keeps f (client_patch_namespace name obj).
Proof.
  unfold client_patch_namespace.
  apply keeps_bind; [apply keeps_emit | intros _].
  apply keeps_bind; [apply keeps_read | intros [|]]; [apply keeps_raise|].
  intros w. destruct (namespace_object w); simpl; [apply f_namespace | reflexivity].
Qed.

Lemma keeps_get_deployment (name namespace : string) :
  keeps f (client_get_deployment name namespace).
Proof.
  unfold client_get_deployment.
  apply keeps_bind; [apply keeps_emit | intros _].
  intros w. destruct (deployment_answers w) as [|[d|] rest]; simpl;
    [reflexivity | apply f_answers | apply f_answers].
Qed.

Lemma keeps_reconcile (scope : Scope) (resources : list (option Resource)) :
  keeps f (krm_reconcile scope resources).
Proof.
  unfold krm_reconcile.
  apply keeps_bind; [apply keeps_emit | intros _].
  apply keeps_bind; [apply keeps_read | intros fails].
  destruct (fails scope); [apply keeps_raise|].
  destruct (all_present resources); [|apply keeps_raise].
  intros w. apply f_owned.
Qed.

End Keeps.

Ltac keeps_step :=
  lazymatch goal with
  | |- keeps _ (ret _) => apply keeps_ret
  | |- keeps _ (raise _) => apply keeps_raise
  | |- keeps _ (read _) => apply keeps_read
  | |- keeps _ (emit _) => apply keeps_emit; assumption
  | |- keeps _ (client_get_namespace _) => apply keeps_get_namespace; assumption
  | |- keeps _ (client_patch_namespace _ _) => apply keeps_patch_namespace; assumption
  | |- keeps _ (client_get_deployment _ _) => apply keeps_get_deployment; assumption
  | |- keeps _ (krm_reconcile _ _) => apply keeps_reconcile; assumption
  | |- keeps _ (try_except _ _ _) => apply keeps_try
  | |- keeps _ (bind _ _) => apply keeps_bind; [| intros ?]
  | |- keeps _ (match ?x with _ => _ end) => destruct x
  end.

Ltac keeps_go := unfold log, set_status, sleep; repeat keeps_step.

Section KeepsCharm.
Context `{Hashing} {X : Type} (f : World -> X).
Hypothesis f_trace : forall w t, f (with_trace w t) = f w.
Hypothesis f_namespace : forall w n, f (with_namespace_object w n) = f w.
Hypothesis f_answers : forall w l, f (with_deployment_answers w l) = f w.
Hypothesis f_owned : forall w o, f (with_owned w o) = f w.

Lemma keeps_add_labels (self : Charm) : keeps f (_add_labels self).
Proof. unfold _add_labels, _get_namespace, _patch_namespace. keeps_go. Qed.

Lemma keeps_remove_labels (self : Charm) : keeps f (_remove_labels self).
Proof. unfold _remove_labels, _get_namespace, _patch_namespace. keeps_go. Qed.

Lemma keeps_sync_waypoint (self : Charm) : keeps f (_sync_waypoint_resources self).
Proof.
  unfold _sync_waypoint_resources.
  apply keeps_bind; [apply keeps_reconcile; assumption | intros _].
  destruct (model_on_mesh (config self));
    [apply keeps_add_labels | apply keeps_remove_labels].
Qed.

Lemma keeps_poll (self : Charm) (check_interval : Z) (iterations : list nat) :
  keeps f (poll_deployment self check_interval iterations).
Proof.
  induction iterations as [|i rest IH]; simpl; [apply keeps_ret|].
  apply keeps_bind; [keeps_go | intros [|]]; [apply keeps_ret|].
  apply keeps_bind; [keeps_go | intros _; exact IH].
Qed.

Lemma keeps_is_waypoint_ready (self : Charm) : keeps f (_is_waypoint_ready self).
Proof.
  unfold _is_waypoint_ready, _is_waypoint_deployment_ready.
  apply keeps_bind; [apply keeps_poll | intros [|]]; apply keeps_ret.
Qed.

Lemma keeps_setup_proxy (self : Charm) : keeps f (_setup_proxy_pebble_service self).
Proof. unfold _setup_proxy_pebble_service. keeps_go. Qed.

Lemma keeps_build (self : Charm) (infos : list MeshPolicy.t) :
  keeps f (_build_authorization_policies self infos).
Proof.
  intros w. destruct (build_authorization_policies_run self infos w) as [logs [Hrun _]].
  rewrite Hrun. apply f_trace.
Qed.

Lemma keeps_sync_policies (self : Charm) : keeps f (_sync_authorization_policies self).
Proof.
  unfold _sync_authorization_policies.
  apply keeps_bind; [| intros aps; apply keeps_reconcile; assumption].
  destruct (manage_authorization_policies (config self)); [|keeps_go].
  apply keeps_bind; [apply keeps_read | intros info].
  apply keeps_bind; [apply keeps_build | intros aps]. keeps_go.
Qed.

End KeepsCharm.

(** ** More on the sync *)

Lemma with_trace_same (w : World) : with_trace w (trace w) = w.
Proof. destruct w. reflexivity. Qed.

Lemma setup_proxy_run (self : Charm) (w : World) :
  _setup_proxy_pebble_service self w
  = (Ok tt,
     if can_connect w then
       with_trace w
         (trace w
          ++ AddLayer ("metrics-proxy --labels " ++ format_labels (_telemetry_labels self))
             :: Replan ::
             (if replan_fails w
              then [Log ERROR "Error while replanning proxy container"]
              else []))%list
     else w).
Proof.
  unfold _setup_proxy_pebble_service. unfold_monad.
  destruct (can_connect w); simpl; [|reflexivity].
  destruct (replan_fails w); simpl; rewrite <- !app_assoc; reflexivity.
Qed.

(** X10: starting the metrics proxy never raises and touches nothing but
    the trace.  Without a connection to the container it does nothing at
    all; otherwise it adds one layer, whose command carries the telemetry
    label of this charm as [key=value], and replans once, a failing replan
    being logged and swallowed. *)
Theorem proxy_service_never_raises (self : Charm) (w : World) :
  let command :=
    "metrics-proxy --labels charms.canonical.com/" ++ model_name self ++ "."
    ++ app_name self ++ ".telemetry=aggregated" in
  _setup_proxy_pebble_service self w
  = (Ok tt,
     if can_connect w then
       with_trace w
         (trace w ++ AddLayer command :: Replan ::
            (if replan_fails w
             then [Log ERROR "Error while replanning proxy container"]
             else []))%list
     else w).
Proof.
  intros command. rewrite setup_proxy_run.
  assert (Hcommand :
            "metrics-proxy --labels " ++ format_labels (_telemetry_labels self) = command).
  { subst command. unfold format_labels, _telemetry_labels, Py.join. simpl.
    rewrite !string_app_assoc. reflexivity. }
  rewrite Hcommand. reflexivity.
Qed.

Section Outcomes.
Context `{Hashing}.

Lemma all_present_gateway (self : Charm) :
  all_present ([] ++ [Some (_construct_waypoint self)])%list = Some [_construct_waypoint self].
Proof. reflexivity. Qed.

(** The waypoint step returns exactly when its reconcile does not fail and
    the namespace can be read. *)
Lemma sync_waypoint_returns (self : Charm) (w : World) :
  fst (_sync_waypoint_resources self w) = Ok tt
  <-> reconcile_fails w WAYPOINT_LABEL = false
      /\ exists ns, namespace_object w = Found ns.
Proof.
  unfold _sync_waypoint_resources, _get_waypoint_resource_manager, krm_reconcile.
  unfold bind at 1. unfold bind at 1. unfold emit at 1. cbn [fst snd].
  unfold bind at 1. unfold read at 1. cbn [reconcile_fails with_trace].
  destruct (reconcile_fails w WAYPOINT_LABEL) eqn:Hfails.
  { cbn. split; [discriminate | intros [Hf _]; discriminate]. }
  cbn -[_add_labels _remove_labels _construct_waypoint].
  match goal with |- context [(if _ then _add_labels self else _remove_labels self) ?w1] =>
    set (w' := w1) end.
  assert (Hsame : namespace_object w' = namespace_object w) by reflexivity.
  destruct (namespace_object w) as [ns|] eqn:Hns.
  - destruct (model_on_mesh (config self)).
    + rewrite (add_labels_returns self w' ns Hsame). split; [eauto | reflexivity].
    + rewrite (remove_labels_returns self w' ns Hsame). split; [eauto | reflexivity].
  - destruct (label_sync_unreadable self w' Hsame) as [Hadd Hremove].
    destruct (model_on_mesh (config self)); [rewrite Hadd | rewrite Hremove]; simpl;
      (split; [discriminate | intros [_ [ns Hfound]]; discriminate]).
Qed.

Lemma is_waypoint_ready_result (self : Charm) (w : World) :
  fst (_is_waypoint_ready self w)
  = Ok (existsb ready_answer
          (take (Z.to_nat (ready_timeout (config self) / 10)) (deployment_answers w))).
Proof.
  unfold _is_waypoint_ready, _is_waypoint_deployment_ready, bind.
  destruct (poll_deployment_run self 10 (Py.range (ready_timeout (config self) / 10)) w)
    as [t [w' [Hrun _]]].
  rewrite range_length in Hrun. rewrite Hrun.
  destruct (existsb ready_answer
              (take (Z.to_nat (ready_timeout (config self) / 10)) (deployment_answers w)));
    reflexivity.
Qed.

(** The policy step returns exactly when its reconcile does not fail: the
    builder fills every slot of its list. *)
Lemma sync_policies_returns (self : Charm) (w : World) :
  fst (_sync_authorization_policies self w)
  = if reconcile_fails w AUTHORIZATION_POLICY_LABEL then Raise ApiError else Ok tt.
Proof.
  unfold _sync_authorization_policies, _get_authorization_policy_resource_manager.
  destruct (manage_authorization_policies (config self)).
  - destruct (build_authorization_policies_run self (mesh_info w) w) as [logs [Hrun _]].
    unfold krm_reconcile. unfold_monad. rewrite Hrun. cbn.
    rewrite <- (map_map (resource_of_policy self) Some (mesh_info w)), all_present_Some.
    destruct (reconcile_fails w AUTHORIZATION_POLICY_LABEL); reflexivity.
  - unfold krm_reconcile. unfold_monad. cbn.
    destruct (reconcile_fails w AUTHORIZATION_POLICY_LABEL); reflexivity.
Qed.

End Outcomes.

Lemma fst_bind {A B} (m : M A) (k : A -> M B) (w : World) :
  fst (bind m k w)
  = match fst (m w) with
    | Ok a => fst (k a (snd (m w)))
    | Raise e => Raise e
    end.
Proof. unfold bind. destruct (m w) as [[a|e] w1]; reflexivity. Qed.


Ltac field_kept := intros; reflexivity.

(** X11: a sync run returns normally in exactly two cases: on a unit that is
    not the leader, or when the waypoint reconcile does not fail, the
    namespace can be read, one of the first [timeout // 10] answers of the
    cluster is a ready deployment, and the policy reconcile does not fail.
    A failing patch of the namespace or replan of the proxy does not make
    the run fail. *)
Theorem sync_succeeds_iff `{Hashing} (self : Charm) (w : World) :
  fst (_sync_all_resources self w) = Ok tt
  <-> is_leader w = false
      \/ (reconcile_fails w WAYPOINT_LABEL = false
          /\ (exists ns, namespace_object w = Found ns)
          /\ existsb ready_answer
               (take (Z.to_nat (ready_timeout (config self) / 10)) (deployment_answers w))
             = true
          /\ reconcile_fails w AUTHORIZATION_POLICY_LABEL = false).
Proof.
  unfold _sync_all_resources. rewrite fst_bind. cbn [read fst snd].
  destruct (is_leader w) eqn:Hleader; cbn [negb].
  2: { split; [intros _; left; reflexivity | intros _; reflexivity]. }
  rewrite fst_bind. cbn [set_status emit fst snd].
  set (w0 := with_trace w _).
  rewrite fst_bind.
  pose proof (sync_waypoint_returns self w0) as Hwaypoint.
  change (reconcile_fails w0) with (reconcile_fails w) in Hwaypoint.
  change (namespace_object w0) with (namespace_object w) in Hwaypoint.
  destruct (fst (_sync_waypoint_resources self w0)) as [[]|e] eqn:Hstep.
  2: { split; [discriminate|]. intros [Hl | [Hf [Hns _]]]; [discriminate|].
       assert (Hok : Raise (A := unit) e = Ok tt) by (apply Hwaypoint; auto).
       discriminate. }
  destruct (proj1 Hwaypoint eq_refl) as [Hfails Hfound].
  set (w1 := snd (_sync_waypoint_resources self w0)).
  assert (Hanswers : deployment_answers w1 = deployment_answers w).
  { unfold w1. rewrite (keeps_sync_waypoint deployment_answers); [reflexivity | field_kept..]. }
  assert (Hfails1 : reconcile_fails w1 = reconcile_fails w).
  { unfold w1. rewrite (keeps_sync_waypoint reconcile_fails); [reflexivity | field_kept..]. }
  rewrite fst_bind, is_waypoint_ready_result, Hanswers.
  destruct (existsb ready_answer _) eqn:Hready; cbn [negb].
  2: { split; [discriminate|]. intros [Hl | [_ [_ [Hr _]]]]; discriminate. }
  set (w2 := snd (_is_waypoint_ready self w1)).
  assert (Hfails2 : reconcile_fails w2 = reconcile_fails w).
  { unfold w2. rewrite (keeps_is_waypoint_ready reconcile_fails); [exact Hfails1 | field_kept..]. }
  rewrite fst_bind, setup_proxy_run. cbn [fst snd].
  set (w3 := if can_connect w2 then _ else _).
  assert (Hfails3 : reconcile_fails w3 = reconcile_fails w).
  { unfold w3. destruct (can_connect w2); exact Hfails2. }
  rewrite fst_bind. cbn [set_status emit fst snd].
  rewrite fst_bind, sync_policies_returns. cbn [reconcile_fails with_trace].
  rewrite Hfails3.
  destruct (reconcile_fails w AUTHORIZATION_POLICY_LABEL) eqn:Hpolicy.
  - split; [discriminate|]. intros [Hl | [_ [_ [_ Hp]]]]; discriminate.
  - split; [|reflexivity]. intros _. right. auto.
Qed.

(** *** The active status *)

Ltac emits_step_with leaf :=
  lazymatch goal with
  | |- emits _ (ret _) => apply emits_ret
  | |- emits _ (raise _) => apply emits_raise
  | |- emits _ (read _) => apply emits_read
  | |- emits _ (emit _) => apply emits_emit; leaf
  | |- emits _ (client_get_namespace _) => apply emits_get_namespace; leaf
  | |- emits _ (client_patch_namespace _ _) => apply emits_patch_namespace; leaf
  | |- emits _ (client_get_deployment _ _) => apply emits_get_deployment; leaf
  | |- emits _ (krm_reconcile _ _) => apply emits_reconcile; leaf
  | |- emits _ (try_except _ _ _) => apply emits_try
  | |- emits _ (bind _ _) => apply emits_bind; [| intros ?]
  | |- emits _ (match ?x with _ => _ end) => destruct x
  end.

Ltac quiet := unfold log, set_status, sleep; repeat emits_step_with ltac:(discriminate).

Section Active.
Context `{Hashing}.

Lemma quiet_sync_waypoint (self : Charm) : emits not_active (_sync_waypoint_resources self).
Proof.
  unfold _sync_waypoint_resources, _add_labels, _remove_labels, _get_namespace,
    _patch_namespace.
  quiet.
Qed.

Lemma quiet_poll (self : Charm) (check_interval : Z) (iterations : list nat) :
  emits not_active (poll_deployment self check_interval iterations).
Proof.
  induction iterations as [|i rest IH]; simpl; [apply emits_ret|].
  apply emits_bind; [quiet | intros [|]]; [apply emits_ret|].
  apply emits_bind; [quiet | intros _; exact IH].
Qed.

Lemma quiet_is_waypoint_ready (self : Charm) : emits not_active (_is_waypoint_ready self).
Proof.
  unfold _is_waypoint_ready, _is_waypoint_deployment_ready.
  apply emits_bind; [apply quiet_poll | intros [|]]; apply emits_ret.
Qed.

Lemma quiet_setup_proxy (self : Charm) : emits not_active (_setup_proxy_pebble_service self).
Proof. unfold _setup_proxy_pebble_service. quiet. Qed.

Lemma quiet_sync_policies (self : Charm) :
  emits not_active (_sync_authorization_policies self).
Proof.
  unfold _sync_authorization_policies.
  apply emits_bind; [| intros aps; quiet].
  destruct (manage_authorization_policies (config self)); [|quiet].
  apply emits_bind; [apply emits_read | intros info].
  apply emits_bind; [| intros aps; quiet].
  intros w. destruct (build_authorization_policies_run self info w) as [logs [Hrun Hlogs]].
  exists logs. rewrite Hrun. split; [reflexivity|].
  eapply Forall_impl; [exact Hlogs|]. intros e [l [msg ->]]. discriminate.
Qed.

Lemma finishes_emit (P : Event -> Prop) (e : Event) : finishes_with e P (emit e).
Proof.
  intros w. exists [e]. split; [reflexivity|]. simpl.
  exists []. split; [reflexivity | constructor].
Qed.

Lemma finishes_raise {A} (P : Event -> Prop) (e : Event) (x : exn) :
  finishes_with e P (raise (A := A) x).
Proof. intros w. exists []. simpl. rewrite app_nil_r. split; [reflexivity | constructor]. Qed.

Lemma finishes_bind {A B} (P : Event -> Prop) (e : Event) (m : M A) (k : A -> M B) :
  emits P m -> (forall a, finishes_with e P (k a)) -> finishes_with e P (bind m k).
Proof.
  intros Hm Hk w. unfold bind.
  destruct (Hm w) as [t1 [Ht1 HP1]].
  destruct (m w) as [[a|x] w1]; simpl in Ht1.
  - destruct (Hk a w1) as [t2 [Ht2 Hend]].
    exists (t1 ++ t2)%list. rewrite Ht2, Ht1, app_assoc. split; [reflexivity|].
    destruct (fst (k a w1)).
    + destruct Hend as [t' [-> HP']]. exists (t1 ++ t')%list.
      rewrite app_assoc. split; [reflexivity | apply Forall_app; auto].
    + apply Forall_app; auto.
  - exists t1. simpl. auto.
Qed.

(** X12: the unit is set active only by a leader's sync run that returns,
    and then as the very last thing the run does; a run that raises never
    sets it, whatever step raised, and a unit that is not the leader only
    sets the blocked status. *)
Theorem active_status_only_on_success (self : Charm) (w : World) :
  exists t,
    trace (snd (_sync_all_resources self w)) = (trace w ++ t)%list
    /\ match fst (_sync_all_resources self w) with
       | Ok _ =>
           if is_leader w then
             exists t', t = (t' ++ [SetStatus ActiveStatus])%list
                        /\ Forall (fun e => e <> SetStatus ActiveStatus) t'
           else
             t = [SetStatus (BlockedStatus "Waypoint can only be provided on the leader unit.")]
       | Raise _ => Forall (fun e => e <> SetStatus ActiveStatus) t
       end.
Proof.
  pose (leader_run :=
          set_status (MaintenanceStatus "Validating waypoint readiness") ;;;
          _sync_waypoint_resources self ;;;
          ready <- _is_waypoint_ready self ;;
          if negb ready then
            raise (A := unit)
              (RuntimeError "Waypoint's k8s deployment not ready, is istio properly installed?")
          else
            _setup_proxy_pebble_service self ;;;
            set_status (MaintenanceStatus "Updating AuthorizationPolicies") ;;;
            _sync_authorization_policies self ;;;
            set_status ActiveStatus).
  assert (Hfin : finishes_with (SetStatus ActiveStatus) not_active leader_run).
  { unfold leader_run.
    apply finishes_bind; [quiet | intros _].
    apply finishes_bind; [apply quiet_sync_waypoint | intros _].
    apply finishes_bind; [apply quiet_is_waypoint_ready | intros [|]]; cbn [negb].
    - apply finishes_bind; [apply quiet_setup_proxy | intros _].
      apply finishes_bind; [quiet | intros _].
      apply finishes_bind; [apply quiet_sync_policies | intros _].
      apply finishes_emit.
    - apply finishes_raise. }
  assert (Hrun :
            _sync_all_resources self w
            = (if negb (is_leader w)
               then set_status
                      (BlockedStatus "Waypoint can only be provided on the leader unit.")
               else leader_run) w) by reflexivity.
  rewrite Hrun. destruct (is_leader w); cbn [negb].
  - exact (Hfin w).
  - eexists. split; reflexivity.
Qed.

End Active.

(** ** Removal, the waypoint step and the workload labels *)



(** X14: the waypoint step never touches the policy scope or the answers of
    the deployment; its first action is always the reconcile of the waypoint
    scope to exactly one gateway; and when that reconcile fails the step
    raises without reading or patching the namespace. *)
Theorem waypoint_step_isolated (self : Charm) (w : World) :
  let run := _sync_waypoint_resources self w in
  let call := Reconcile WAYPOINT_LABEL [Some (_construct_waypoint self)] in
  owned (snd run) AUTHORIZATION_POLICY_LABEL = owned w AUTHORIZATION_POLICY_LABEL
  /\ deployment_answers (snd run) = deployment_answers w
  /\ (exists t, trace (snd run) = (trace w ++ call :: t)%list)
  /\ (if reconcile_fails w WAYPOINT_LABEL
      then run = (Raise ApiError, with_trace w (trace w ++ [call]))
      else True).
Proof.
  intros run call. subst run.
  split; [|split; [|split]].
  - unfold _sync_waypoint_resources, _get_waypoint_resource_manager, krm_reconcile.
    unfold bind at 1. unfold bind at 1. unfold emit at 1. cbn [fst snd].
    unfold bind at 1. unfold read at 1. cbn [reconcile_fails with_trace].
    destruct (reconcile_fails w WAYPOINT_LABEL); [reflexivity|].
    cbn -[_add_labels _remove_labels _construct_waypoint].
    destruct (model_on_mesh (config self)).
    + rewrite (keeps_add_labels (fun w => owned w AUTHORIZATION_POLICY_LABEL));
        [reflexivity | field_kept..].
    + rewrite (keeps_remove_labels (fun w => owned w AUTHORIZATION_POLICY_LABEL));
        [reflexivity | field_kept..].
  - rewrite (keeps_sync_waypoint deployment_answers); [reflexivity | field_kept..].
  - unfold _sync_waypoint_resources, _get_waypoint_resource_manager, krm_reconcile.
    unfold bind at 1. unfold bind at 1. unfold emit at 1. cbn [fst snd].
    unfold bind at 1. unfold read at 1. cbn [reconcile_fails with_trace].
    destruct (reconcile_fails w WAYPOINT_LABEL); [exists []; reflexivity|].
    cbn -[_add_labels _remove_labels _construct_waypoint].
    match goal with |- context [(if _ then _add_labels self else _remove_labels self) ?w1] =>
      set (w' := w1) end.
    assert (Hlabels : emits waypoint_phase
                        (if model_on_mesh (config self)
                         then _add_labels self else _remove_labels self)).
    { destruct (model_on_mesh (config self));
        [apply emits_add_labels | apply emits_remove_labels]. }
    destruct (Hlabels w') as [t [Ht _]].
    exists t. rewrite Ht. unfold w'. cbn. rewrite <- app_assoc. reflexivity.
  - unfold _sync_waypoint_resources, _get_waypoint_resource_manager, krm_reconcile.
    unfold_monad. cbn.
    destruct (reconcile_fails w WAYPOINT_LABEL); [reflexivity | exact I].
Qed.

(** X15: the labels advertised to workloads and the labels claimed on the
    namespace never disagree.  With the namespace on the mesh no workload
    label is advertised; otherwise the advertised [use-waypoint] and
    [dataplane-mode] are the values an accepted claim writes on the
    namespace, and the advertised waypoint and its namespace are the name and
    namespace of the gateway the charm builds. *)
Theorem mesh_labels_agree_with_claim (self : Charm) (w : World) (ns : Namespace.t) :
  namespace_object w = Found ns ->
  patch_fails w = false ->
  ~ (istio_configured (labels_of_namespace ns)
     /\ labels_get (labels_of_namespace ns) MANAGED_BY <> Some (_app_identity self)) ->
  let claimed := namespace_labels (snd (_add_labels self w)) in
  if model_on_mesh (config self) then mesh_labels self = []
  else
    pairs_get USE_WAYPOINT (mesh_labels self) = labels_get claimed USE_WAYPOINT
    /\ pairs_get DATAPLANE_MODE (mesh_labels self) = labels_get claimed DATAPLANE_MODE
    /\ pairs_get USE_WAYPOINT (mesh_labels self)
       = ObjectMeta.name (metadata (_construct_waypoint self))
    /\ pairs_get "istio.io/use-waypoint-namespace" (mesh_labels self)
       = ObjectMeta.namespace (metadata (_construct_waypoint self))
    /\ pairs_get MANAGED_BY (mesh_labels self) = None.
Proof.
  intros Hns Hpatch Hfree claimed.
  destruct (add_labels_accepted self w ns Hns Hpatch Hfree) as [ns1 [Hns1 [_ HL1]]].
  unfold mesh_labels.
  destruct (model_on_mesh (config self)); [reflexivity|].
  subst claimed. unfold namespace_labels. rewrite Hns1, !HL1.
  repeat split; reflexivity.
Qed.

Lemma mesh_labels_agree_with_claim_witness :
  namespace_object (world_with team_labels) = Found (namespace_with team_labels)
  /\ patch_fails (world_with team_labels) = false
  /\ pairs_get USE_WAYPOINT (mesh_labels offmesh)
     = labels_get (namespace_labels (snd (_add_labels offmesh (world_with team_labels))))
         USE_WAYPOINT.
Proof.
  split; [reflexivity|]. split; [reflexivity|].
  exact (proj1 (mesh_labels_agree_with_claim offmesh (world_with team_labels)
                  (namespace_with team_labels) eq_refl eq_refl team_labels_free)).
Defined.

(** X17: on a unit that is not the leader every observed event except
    removal does one thing only: it sets the blocked status.  No cluster
    call is made and the world is otherwise as it was. *)
Theorem hooks_blocked_off_leader `{Hashing} (self : Charm) (h : Hook) (w : World) :
  is_leader w = false ->
  h <> remove ->
  observe self h w
  = (Ok tt,
     with_trace w
       (trace w
        ++ [SetStatus (BlockedStatus "Waypoint can only be provided on the leader unit.")])).
Proof.
  intros Hleader Hhook.
  assert (Hsync :
            _sync_all_resources self w
            = (Ok tt,
               with_trace w
                 (trace w
                  ++ [SetStatus
                        (BlockedStatus "Waypoint can only be provided on the leader unit.")]))).
  { unfold _sync_all_resources. unfold bind at 1. cbn [read]. rewrite Hleader. reflexivity. }
  destruct h; try exact Hsync. contradiction.
Qed.

Lemma hooks_blocked_off_leader_witness :
  is_leader follower_world = false
  /\ config_changed <> remove
  /\ observe beacon config_changed follower_world
     = (Ok tt,
        with_trace follower_world
          [SetStatus (BlockedStatus "Waypoint can only be provided on the leader unit.")]).
Proof.
  assert (Hhook : config_changed <> remove) by discriminate.
  split; [reflexivity|]. split; [exact Hhook|].
  exact (hooks_blocked_off_leader (H := test_hashing) beacon config_changed follower_world
           eq_refl Hhook).
Defined.

(** ** More on the policy builder *)

Section BuilderLogs.
Context `{Hashing}.

Lemma build_loop_logs (self : Charm) (items : list (nat * MeshPolicy.t)) :
  forall (acc : list (option Resource)) (w : World),
    snd (build_loop self items acc w)
    = with_trace w
        (trace w ++ map (fun ip => fallback_log (snd ip))
                        (List.filter (fun ip => lacks_service (snd ip)) items))%list.
Proof.
  induction items as [|[i policy] rest IH]; intros acc w.
  - simpl. rewrite app_nil_r. symmetry. apply with_trace_same.
  - simpl. unfold_monad. unfold lacks_service at 1. simpl.
    destruct (MeshPolicy.target_service policy) as [svc|]; cbn.
    + apply IH.
    + rewrite IH. cbn. rewrite <- app_assoc. reflexivity.
Qed.

Lemma enumerate_filter_map {A B} (p : A -> bool) (g : A -> B) (l : list A) :
  forall f : nat -> nat,
    map (fun ip => g (snd ip)) (List.filter (fun ip => p (snd ip)) (imap (fun i x => (f i, x)) l))
    = map g (List.filter p l).
Proof.
  induction l as [|x l IH]; intros f; [reflexivity|].
  rewrite imap_cons. simpl. destruct (p x); simpl; [f_equal|]; apply (IH (f ∘ S)).
Qed.

(** X16: the builder changes nothing but the log, and logs exactly one line
    per policy that has no target service, in the order of the policies,
    naming the application it falls back to; a policy with a target service,
    even an empty one, is not logged. *)
Theorem builder_logs_fallbacks (self : Charm) (infos : list MeshPolicy.t) (w : World) :
  snd (_build_authorization_policies self infos w)
  = with_trace w (trace w ++ map fallback_log (List.filter lacks_service infos))%list.
Proof.
  unfold _build_authorization_policies, enumerate.
  rewrite build_loop_logs. do 2 f_equal.
  exact (enumerate_filter_map lacks_service fallback_log infos (fun i => i)).
Qed.

End BuilderLogs.

(** ** The order of a sync run *)

Lemma bind_ok {A B} (m : M A) (k : A -> M B) (w : World) (a : A) :
  fst (m w) = Ok a -> bind m k w = k a (snd (m w)).
Proof. unfold bind. destruct (m w) as [[a'|e] w1]; simpl; [intros [= ->]; reflexivity | discriminate]. Qed.

Lemma bind_raise {A B} (m : M A) (k : A -> M B) (w : World) (e : exn) :
  fst (m w) = Raise e -> bind m k w = (Raise e, snd (m w)).
Proof. unfold bind. destruct (m w) as [[a'|e'] w1]; simpl; [discriminate | intros [= ->]; reflexivity]. Qed.

Lemma bind_assoc {A B C} (m : M A) (k : A -> M B) (k' : B -> M C) (w : World) :
  bind (bind m k) k' w = bind m (fun a => bind (k a) k') w.
Proof. unfold bind. destruct (m w) as [[a|e] w1]; reflexivity. Qed.

(** The reconcile of the waypoint scope to the one gateway: one event, and a
    failure only from the cluster. *)
Lemma reconcile_gateway_run (self : Charm) (w : World) :
  fst (krm_reconcile WAYPOINT_LABEL [Some (_construct_waypoint self)] w)
  = (if reconcile_fails w WAYPOINT_LABEL then Raise ApiError else Ok tt)
  /\ trace (snd (krm_reconcile WAYPOINT_LABEL [Some (_construct_waypoint self)] w))
     = (trace w ++ [Reconcile WAYPOINT_LABEL [Some (_construct_waypoint self)]])%list.
Proof.
  unfold krm_reconcile. unfold_monad. cbn -[_construct_waypoint].
  destruct (reconcile_fails w WAYPOINT_LABEL); split; reflexivity.
Qed.

(** The label operation reads the namespace first; whatever follows is a
    log line or the patch. *)
Lemma label_step_events (self : Charm) (w : World) :
  exists labels,
    trace (snd (label_step self w))
    = (trace w ++ GetNamespace (model_name self) :: labels)%list
    /\ Forall waypoint_phase labels.
Proof.
  assert (Hemits : emits waypoint_phase (label_step self)).
  { unfold label_step. destruct (model_on_mesh (config self));
      [apply emits_add_labels | apply emits_remove_labels]. }
  destruct (Hemits w) as [t [Ht HP]].
  assert (Hfirst : exists labels, t = GetNamespace (model_name self) :: labels).
  { assert (Hhead : exists labels,
              trace (snd (label_step self w))
              = (trace w ++ GetNamespace (model_name self) :: labels)%list).
    { unfold label_step.
      destruct (namespace_object w) as [ns|] eqn:Hns.
      - destruct (model_on_mesh (config self)).
        + rewrite (add_labels_run self w ns Hns).
          repeat match goal with |- context [if ?c then _ else _] => destruct c end;
            eexists; reflexivity.
        + rewrite (remove_labels_run self w ns Hns).
          repeat match goal with |- context [if ?c then _ else _] => destruct c end;
            eexists; reflexivity.
      - destruct (label_sync_unreadable self w Hns) as [Hadd Hremove].
        destruct (model_on_mesh (config self)); [rewrite Hadd | rewrite Hremove];
          eexists; reflexivity. }
    destruct Hhead as [labels Hlabels]. exists labels.
    rewrite Ht in Hlabels. exact (app_inv_head _ _ _ Hlabels). }
  destruct Hfirst as [labels ->]. exists labels. split; [exact Ht|].
  inversion HP; assumption.
Qed.

Section Order.
Context `{Hashing}.

Definition after_waypoint (e : Event) : Prop := is_waypoint_reconcile e = false.

Ltac ordered :=
  unfold log, set_status, sleep;
  repeat emits_step_with ltac:(repeat split; reflexivity).

Lemma ordered_poll (self : Charm) (check_interval : Z) (iterations : list nat) :
  emits (fun e => readiness_phase e /\ after_waypoint e)
        (poll_deployment self check_interval iterations).
Proof.
  induction iterations as [|i rest IH]; simpl; [apply emits_ret|].
  apply emits_bind; [ordered | intros [|]]; [apply emits_ret|].
  apply emits_bind; [ordered | intros _; exact IH].
Qed.

Lemma ordered_is_waypoint_ready (self : Charm) :
  emits (fun e => readiness_phase e /\ after_waypoint e) (_is_waypoint_ready self).
Proof.
  unfold _is_waypoint_ready, _is_waypoint_deployment_ready.
  apply emits_bind; [apply ordered_poll | intros [|]]; apply emits_ret.
Qed.

(** What the sync does once the waypoint is ready. *)
Definition behind_the_gate (self : Charm) : M unit :=
  _setup_proxy_pebble_service self ;;;
  set_status (MaintenanceStatus "Updating AuthorizationPolicies") ;;;
  _sync_authorization_policies self ;;;
  set_status ActiveStatus.

Lemma ordered_behind_the_gate (self : Charm) :
  emits (fun e => gated_phase e /\ after_waypoint e) (behind_the_gate self).
Proof.
  unfold behind_the_gate, _setup_proxy_pebble_service, _sync_authorization_policies.
  apply emits_bind; [ordered | intros _].
  apply emits_bind; [ordered | intros _].
  apply emits_bind; [| intros _; ordered].
  apply emits_bind; [| intros aps; ordered].
  destruct (manage_authorization_policies (config self)); [|ordered].
  apply emits_bind; [apply emits_read | intros info].
  apply emits_bind; [| intros aps; ordered].
  intros w. destruct (build_authorization_policies_run self info w) as [logs [Hrun Hlogs]].
  exists logs. rewrite Hrun. split; [reflexivity|].
  eapply Forall_impl; [exact Hlogs|]. intros e [l [msg ->]]. repeat split; reflexivity.
Qed.

Lemma Forall_both {A} (P Q : A -> Prop) (l : list A) :
  Forall (fun x => P x /\ Q x) l -> Forall P l /\ Forall Q l.
Proof. intros Hl. split; eapply Forall_impl; try exact Hl; intros x [HP HQ]; assumption. Qed.

(** C3 (amended): in every sync run the namespace labels are claimed or
    released as the tail of the waypoint step, before the readiness wait
    begins.  The events of a run come in three phases, in this order.  The
    first has no readiness poll: on the leader it is the status line, then
    the reconcile of the waypoint scope to the one gateway and, unless that
    reconcile fails, the events of the label operation (the claim with
    [model-on-mesh] set, the release without) run on the world as the
    reconcile left it, beginning with the read of the namespace.  The second
    is the readiness wait, which starts only after the label operation has
    returned, on the world that operation left, and has no namespace event.
    The third is what lies behind the readiness gate, again without a
    namespace event; neither of the last two reconciles the waypoint
    scope. *)
Theorem C3_labels_before_readiness (self : Charm) (w : World) :
  exists t1 t2 t3,
    trace (snd (_sync_all_resources self w)) = (trace w ++ t1 ++ t2 ++ t3)%list
    /\ Forall (fun e => is_readiness_event e = false /\ is_gated_event e = false) t1
    /\ Forall (fun e => is_namespace_event e = false /\ is_gated_event e = false) t2
    /\ Forall (fun e => is_namespace_event e = false /\ is_readiness_event e = false) t3
    /\ Forall (fun e => is_waypoint_reconcile e = false) (t2 ++ t3)%list
    /\ if is_leader w then
         let started := SetStatus (MaintenanceStatus "Validating waypoint readiness") in
         let call := Reconcile WAYPOINT_LABEL [Some (_construct_waypoint self)] in
         let w1 :=
           snd (krm_reconcile WAYPOINT_LABEL [Some (_construct_waypoint self)]
                  (snd (set_status (MaintenanceStatus "Validating waypoint readiness") w))) in
         if reconcile_fails w WAYPOINT_LABEL then
           t1 = [started; call] /\ t2 = [] /\ t3 = []
         else
           exists labels,
             t1 = started :: call :: GetNamespace (model_name self) :: labels
             /\ trace (snd (label_step self w1))
                = (trace w1 ++ GetNamespace (model_name self) :: labels)%list
             /\ match fst (label_step self w1) with
                | Ok _ =>
                    trace (snd (_is_waypoint_ready self (snd (label_step self w1))))
                    = (trace (snd (label_step self w1)) ++ t2)%list
                | Raise _ => t2 = [] /\ t3 = []
                end
       else
         t1 = [SetStatus (BlockedStatus "Waypoint can only be provided on the leader unit.")]
         /\ t2 = [] /\ t3 = [].
Proof.
  pose (started := SetStatus (MaintenanceStatus "Validating waypoint readiness")).
  pose (call := Reconcile WAYPOINT_LABEL [Some (_construct_waypoint self)]).
  pose (gate := fun ready : bool =>
          if negb ready then
            raise (A := unit)
              (RuntimeError "Waypoint's k8s deployment not ready, is istio properly installed?")
          else behind_the_gate self).
  pose (w0 := snd (set_status (MaintenanceStatus "Validating waypoint readiness") w)).
  assert (Hrun :
            _sync_all_resources self w
            = if is_leader w then
                bind (krm_reconcile WAYPOINT_LABEL [Some (_construct_waypoint self)])
                     (fun _ => bind (label_step self)
                                 (fun _ => bind (_is_waypoint_ready self) gate)) w0
              else
                set_status
                  (BlockedStatus "Waypoint can only be provided on the leader unit.") w).
  { unfold _sync_all_resources. unfold bind at 1. cbn [read].
    destruct (is_leader w); [|reflexivity]. cbn [negb].
    transitivity
      (bind (bind (krm_reconcile WAYPOINT_LABEL [Some (_construct_waypoint self)])
                  (fun _ => label_step self))
            (fun _ => bind (_is_waypoint_ready self) gate) w0);
      [reflexivity | apply bind_assoc]. }
  rewrite Hrun. clear Hrun.
  destruct (is_leader w).
  2: { exists [SetStatus (BlockedStatus "Waypoint can only be provided on the leader unit.")],
              [], [].
       split; [reflexivity|]. split; [repeat constructor|].
       split; [constructor|]. split; [constructor|]. split; [constructor|].
       split; [reflexivity|]. split; reflexivity. }
  cbv zeta.
  destruct (reconcile_gateway_run self w0) as [Hcall Htrace1].
  change (reconcile_fails w0) with (reconcile_fails w) in Hcall.
  change (trace w0) with (trace w ++ [started])%list in Htrace1.
  change (snd (set_status (MaintenanceStatus "Validating waypoint readiness") w)) with w0.
  set (w1 := snd (krm_reconcile WAYPOINT_LABEL [Some (_construct_waypoint self)] w0)) in *.
  destruct (reconcile_fails w WAYPOINT_LABEL).
  { rewrite (bind_raise _ _ _ _ Hcall). cbn [snd]. fold w1.
    exists [started; call], [], []. rewrite Htrace1, <- app_assoc.
    split; [reflexivity|]. split; [repeat constructor|].
    split; [constructor|]. split; [constructor|]. split; [constructor|].
    split; [reflexivity|]. split; reflexivity. }
  rewrite (bind_ok _ _ _ _ Hcall). fold w1.
  destruct (label_step_events self w1) as [labels [Hlabels HPlabels]].
  assert (HP1 : Forall (fun e => is_readiness_event e = false /\ is_gated_event e = false)
                       (started :: call :: GetNamespace (model_name self) :: labels)).
  { repeat (constructor; [split; reflexivity|]). exact HPlabels. }
  assert (Hprefix : trace (snd (label_step self w1))
                    = (trace w ++ started :: call :: GetNamespace (model_name self) :: labels)%list).
  { rewrite Hlabels, Htrace1, <- !app_assoc. reflexivity. }
  destruct (fst (label_step self w1)) as [[]|e] eqn:Hstep.
  2: { rewrite (bind_raise _ _ _ _ Hstep). cbn [snd].
       exists (started :: call :: GetNamespace (model_name self) :: labels), [], [].
       rewrite !app_nil_r. split; [exact Hprefix|].
       split; [exact HP1|].
       split; [constructor|]. split; [constructor|]. split; [constructor|].
       exists labels. split; [reflexivity|]. split; [exact Hlabels|].
       split; reflexivity. }
  rewrite (bind_ok _ _ _ _ Hstep).
  set (w2 := snd (label_step self w1)) in *.
  destruct (ordered_is_waypoint_ready self w2) as [t2 [Ht2 HP2]].
  apply Forall_both in HP2 as [HP2 HQ2].
  destruct (fst (_is_waypoint_ready self w2)) as [ready|e] eqn:Hready.
  2: { rewrite (bind_raise _ _ _ _ Hready). cbn [snd].
       exists (started :: call :: GetNamespace (model_name self) :: labels), t2, [].
       rewrite !app_nil_r. split; [rewrite Ht2, Hprefix, <- app_assoc; reflexivity|].
       split; [exact HP1|]. split; [exact HP2|]. split; [constructor|].
       split; [exact HQ2|].
       exists labels. split; [reflexivity|]. split; [exact Hlabels | exact Ht2]. }
  rewrite (bind_ok _ _ _ _ Hready).
  set (w3 := snd (_is_waypoint_ready self w2)) in *.
  assert (Hgate : exists t3,
             trace (snd (gate ready w3)) = (trace w3 ++ t3)%list
             /\ Forall (fun e => gated_phase e /\ after_waypoint e) t3).
  { unfold gate. destruct ready; cbn [negb].
    - apply ordered_behind_the_gate.
    - exists []. cbn. rewrite app_nil_r. split; [reflexivity | constructor]. }
  destruct Hgate as [t3 [Ht3 HP3]]. apply Forall_both in HP3 as [HP3 HQ3].
  exists (started :: call :: GetNamespace (model_name self) :: labels), t2, t3.
  split; [rewrite Ht3, Ht2, Hprefix, <- !app_assoc; reflexivity|].
  split; [exact HP1|]. split; [exact HP2|]. split; [exact HP3|].
  split; [apply Forall_app; split; assumption|].
  exists labels. split; [reflexivity|]. split; [exact Hlabels | exact Ht2].
Qed.

End Order.
